(** * pdldb: the table manager and its facade, embedded in Rocq

    The development follows [src/pdldb/base_table_manager.py]
    ([BaseTableManager]) and [src/pdldb/lake_manager.py] ([LakeManager]).

    - Python [str] values are [string]s, read as sequences of code points
      below 256; text beyond that range is outside this model.
    - A table schema, a [dict[str, Any]], is an association list from column
      names to data types, in the dict's order.
    - Option dicts ([delta_write_options], [storage_options]) are [gmap]s.
    - The storage engine (deltalake) and the dataframe library (polars) are
      outside the repository: every call into them is recorded in a log kept
      in the manager state, and what the call returns or raises is given by
      an oracle that sees the log so far. *)

From Stdlib Require Import ZArith Ascii String List.
From stdpp Require Import base option list gmap strings fin_maps.

Import ListNotations.
Local Open Scope string_scope.
Local Open Scope list_scope.

(** ** Python string operations used by the source *)

Module PyStr.

(** [str.isspace] on one character, for code points below 256: tab, line
    feed, vertical tab, form feed, carriage return, the four separators
    0x1c-0x1f, space, next line (0x85) and no-break space (0xa0). *)
Definition isspace (a : ascii) : bool :=
  let n := nat_of_ascii a in
  (Nat.leb 9 n && Nat.leb n 13) || (Nat.leb 28 n && Nat.leb n 32)
  || Nat.eqb n 133 || Nat.eqb n 160.

Fixpoint lstrip (s : string) : string :=
  match s with
  | EmptyString => EmptyString
  | String a s' => if isspace a then lstrip s' else s
  end.

Fixpoint rstrip (s : string) : string :=
  match s with
  | EmptyString => EmptyString
  | String a s' =>
      match rstrip s' with
      | EmptyString => if isspace a then EmptyString else String a EmptyString
      | r => String a r
      end
  end.

(** [s.strip()] *)
Definition strip (s : string) : string := rstrip (lstrip s).

(** [c in s] for a one-character string [c] *)
Fixpoint contains (c : ascii) (s : string) : bool :=
  match s with
  | EmptyString => false
  | String a s' => if Ascii.eqb a c then true else contains c s'
  end.

(** [s.split(c)] for a one-character separator: always at least one part. *)
Fixpoint split (c : ascii) (s : string) : list string :=
  match s with
  | EmptyString => [EmptyString]
  | String a s' =>
      if Ascii.eqb a c then EmptyString :: split c s'
      else match split c s' with
           | [] => [String a EmptyString]
           | p :: ps => String a p :: ps
           end
  end.

(** [sep.join(parts)] *)
Definition join (sep : string) (parts : list string) : string :=
  String.concat sep parts.

(** [not v or not v.strip()], the test of the [validate_table_name]
    validators. *)
Definition blank (v : string) : bool :=
  match v with
  | EmptyString => true
  | _ => match strip v with EmptyString => true | _ => false end
  end.

End PyStr.

Definition comma : ascii := ","%char.

(** ** Data model *)

(** Polars data types that appear as schema values. *)
Inductive DataType :=
| Int32 | Int64 | Float64 | Utf8 | Boolean
| Datetime (time_unit : string).

Global Instance DataType_eq_dec : EqDecision DataType.
Proof. solve_decision. Defined.

Inductive PyValue :=
| PyNone
| PyBool (b : bool)
| PyInt (z : Z)
| PyStr (s : string).

Definition Schema := list (string * DataType).
Abbreviation Options := (gmap string PyValue).

(** A [pl.DataFrame]: its schema and its rows. *)
Record DataFrame := mkDataFrame {
  df_schema : Schema;
  df_rows : list (list PyValue)
}.

(** [pl.DataFrame(schema=schema)]: the frame without rows. *)
Definition empty_frame (schema : Schema) : DataFrame :=
  {| df_schema := schema; df_rows := [] |}.

(** Modelled from the spec: [BaseTable] is declared in
    [pdldb/base_table_validator.py], a module this development does not
    cover. The manager builds it with the three keyword arguments [name],
    [table_schema], [primary_keys] and reads the last two back; the spec's
    TableDefinition has the same three fields. *)
Record BaseTable := mkBaseTable {
  name : string;
  table_schema : Schema;
  primary_keys : string
}.

(** [self.base_path / table_name], kept symbolic. *)
Record TablePath := mkTablePath {
  path_base : string;
  path_name : string
}.

Inductive WriteMode := ModeAppend | ModeOverwrite.

(** The clauses a [TableMerger] accumulates before [execute()]. *)
Inductive MergeClause :=
| when_matched_update_all
| when_not_matched_insert_all
| when_matched_delete
| when_not_matched_by_source_delete.

Global Instance MergeClause_eq_dec : EqDecision MergeClause.
Proof. solve_decision. Defined.

(** The [delta_merge_options] dict of [merge]. *)
Record MergeOptions := mkMergeOptions {
  predicate : string;
  source_alias : string;
  target_alias : string
}.

(** A [pl.LazyFrame]: a deferred scan of a table, or a frame made lazy. *)
Inductive LazyFrame :=
| LazyScan (target : TablePath)
| LazyOf (df : DataFrame).

(** The primary-key argument of [create_table]: [Union[str, list[str]]]. *)
Inductive PrimaryKeys :=
| PkStr (s : string)
| PkList (l : list string).

(** The columns a primary-key argument declares, in declared order. *)
Definition declared_columns (pk : PrimaryKeys) : list string :=
  match pk with
  | PkStr s => [s]
  | PkList l => l
  end.

(** ** Calls into the storage engine and the dataframe library *)

Inductive EngineCall :=
| write_delta (target : TablePath) (mode : WriteMode) (df : DataFrame)
    (delta_write_options : Options) (storage_options : option Options)
| write_delta_merge (target : TablePath) (df : DataFrame)
    (storage_options : option Options) (delta_merge_options : MergeOptions)
| execute (target : TablePath) (clauses : list MergeClause)
| read_delta (target : TablePath) (storage_options : option Options)
| scan_delta (target : TablePath) (storage_options : option Options)
| DeltaTable (target : TablePath) (storage_options : option Options)
| compact (target : TablePath) (target_size max_concurrent_tasks : option Z)
    (writer_properties : option Options)
| vacuum (target : TablePath) (retention_hours : option Z)
    (dry_run enforce_retention_duration : bool)
| version (target : TablePath)
| metadata (target : TablePath)
| glob (target : TablePath) (pattern : string)
| remove_storage (target : TablePath).

(** What each call returns when it does not raise. [write_delta] in merge
    mode returns the [TableMerger]; the clauses then chained on it are
    carried by the [execute] call. *)
Definition ret_type (c : EngineCall) : Type :=
  match c with
  | write_delta _ _ _ _ _ => unit
  | write_delta_merge _ _ _ _ => unit
  | execute _ _ => unit
  | read_delta _ _ => DataFrame
  | scan_delta _ _ => LazyFrame
  | DeltaTable _ _ => unit
  | compact _ _ _ _ => Options
  | vacuum _ _ _ _ => list string
  | version _ => Z
  | metadata _ => Options
  | glob _ _ => list string
  | remove_storage _ => unit
  end.

(** Exceptions of the engine: [deltalake.exceptions.TableNotFoundError],
    told apart from every other exception; [msg] is [str(e)]. *)
Inductive EngineError :=
| TableNotFoundError (msg : string)
| EngineException (msg : string).

Definition str (e : EngineError) : string :=
  match e with
  | TableNotFoundError msg => msg
  | EngineException msg => msg
  end.

(** Exceptions a caller of the manager or of the facade can see. [cause] is
    the exception after [raise ... from]. *)
Inductive Exn :=
| Propagated (e : EngineError)
| ValidationError (errors : list string)
| KeyError (key : string)
| ValueError (msg : string) (cause : option EngineError)
| RuntimeError (msg : string) (cause : option EngineError).

Inductive Outcome (X A : Type) :=
| Raised (x : X)
| Returned (a : A).
Arguments Raised {X A} x.
Arguments Returned {X A} a.

(** The engine as an oracle: the outcome of a call, given the calls made
    before it. *)
Definition Engine : Type :=
  forall (history : list EngineCall) (c : EngineCall),
    Outcome EngineError (ret_type c).

(** ** The manager state and its monad *)

(** The attributes of [BaseTableManager], and the log of engine calls. *)
Record Manager := mkManager {
  base_path : string;
  storage_options : option Options;
  tables : gmap string BaseTable;
  calls : list EngineCall
}.

Definition set_tables (t : gmap string BaseTable) (st : Manager) : Manager :=
  {| base_path := base_path st; storage_options := storage_options st;
     tables := t; calls := calls st |}.

Definition log_call (c : EngineCall) (st : Manager) : Manager :=
  {| base_path := base_path st; storage_options := storage_options st;
     tables := tables st; calls := calls st ++ [c] |}.

(** Computations over the manager that raise [X] or return [A]. *)
Definition M (X A : Type) : Type := Manager -> Outcome X A * Manager.

Definition ret {X A} (a : A) : M X A := fun st => (Returned a, st).

Definition raise {X A} (x : X) : M X A := fun st => (Raised x, st).

Definition bind {X A B} (m : M X A) (k : A -> M X B) : M X B :=
  fun st =>
    match m st with
    | (Returned a, st') => k a st'
    | (Raised x, st') => (Raised x, st')
    end.

(** [try: m except X as e: h e] *)
Definition catch {X Y A} (m : M X A) (h : X -> M Y A) : M Y A :=
  fun st =>
    match m st with
    | (Returned a, st') => (Returned a, st')
    | (Raised x, st') => h x st'
    end.

Definition gets {X A} (f : Manager -> A) : M X A := fun st => (Returned (f st), st).

Definition modify {X} (f : Manager -> Manager) : M X unit :=
  fun st => (Returned tt, f st).

(** A statement guarded by [if b:]. *)
Definition when {X} (b : bool) (m : M X unit) : M X unit :=
  if b then m else ret tt.

Notation "x <- m ;; k" := (bind m (fun x => k))
  (at level 100, m at next level, right associativity).
Notation "m ;;; k" := (bind m (fun _ => k))
  (at level 100, right associativity).

(** An engine exception that nothing catches reaches the caller as it is. *)
Definition propagate {A} (m : M EngineError A) : M Exn A :=
  catch m (fun e => raise (Propagated e)).

(** ** [BaseTableManager] *)

(** The [info] dict of [get_table_info]. *)
Record TableInfo := mkTableInfo {
  info_exists : bool;
  info_version : Z;
  info_metadata : Options;
  info_size : nat;
  info_schema : Schema;
  info_primary_keys : string
}.

(** The join predicate of [merge], built from the stored primary-key
    string. *)
Definition merge_predicate (primary_keys : string) : string :=
  if PyStr.contains comma primary_keys then
    let pk_columns := map PyStr.strip (PyStr.split comma primary_keys) in
    let predicate_conditions :=
      map (fun col => "s." +:+ col +:+ " = t." +:+ col) pk_columns in
    PyStr.join " AND " predicate_conditions
  else
    "s." +:+ primary_keys +:+ " = t." +:+ primary_keys.

(** [delta_write_options = delta_write_options or {}] followed by
    [delta_write_options["description"] = primary_keys]: the options the
    engine is given. That a dict passed by the caller is updated in place is
    not tracked. *)
Definition with_description (delta_write_options : option Options)
    (primary_keys : string) : Options :=
  <["description" := PyStr primary_keys]> (default ∅ delta_write_options).

(** [if isinstance(primary_keys, list): primary_keys = ",".join(primary_keys)] *)
Definition composite_key (primary_keys : PrimaryKeys) : string :=
  match primary_keys with
  | PkList l => PyStr.join "," l
  | PkStr s => s
  end.

Definition schema_mismatch : Exn :=
  ValueError "DataFrame does not match table schema" None.

Definition no_data_to_merge (merge_condition : string) (e : EngineError) : Exn :=
  ValueError
    ("No log files found or data found."
     +:+ "Please check if table data exists or if the merge condition ("
     +:+ merge_condition +:+ ") is correct.")
    (Some e).

Definition merge_failed (e : EngineError) : Exn :=
  RuntimeError ("An error occurred during the merge operation: " +:+ str e)
    (Some e).

Section BaseTableManager.

(** The engine the manager talks to. *)
Variable engine : Engine.

(** [BaseTable.validate_schema], defined with [BaseTable] in another
    module: the manager only tests its result. *)
Variable validate_schema : BaseTable -> DataFrame -> bool.

(** One call into the engine: logged, and answered by the oracle. *)
Definition call (c : EngineCall) : M EngineError (ret_type c) :=
  fun st => (engine (calls st) c, log_call c st).

(** [self.tables[table_name]] *)
Definition lookup_table (table_name : string) : M Exn BaseTable :=
  fun st =>
    match tables st !! table_name with
    | Some base_table => (Returned base_table, st)
    | None => (Raised (KeyError table_name), st)
    end.

(** [self.base_path / table_name] *)
Definition table_path {X} (table_name : string) : M X TablePath :=
  gets (fun st => mkTablePath (base_path st) table_name).

Definition create_table (table_name : string) (table_schema : Schema)
    (primary_keys : PrimaryKeys) : M Exn unit :=
  let primary_keys := composite_key primary_keys in
  let base_table := mkBaseTable table_name table_schema primary_keys in
  modify (fun st => set_tables (<[table_name := base_table]> (tables st)) st).

Definition append (table_name : string) (df : DataFrame)
    (delta_write_options : option Options) : M Exn unit :=
  base_table <- lookup_table table_name ;;
  if negb (validate_schema base_table df) then raise schema_mismatch
  else
    let delta_write_options :=
      with_description delta_write_options (primary_keys base_table) in
    target <- table_path table_name ;;
    so <- gets storage_options ;;
    propagate (call (write_delta target ModeAppend df delta_write_options so)).

(** The five [if merge_condition == ...] statements inside the [try]. *)
Definition merge_actions (target : TablePath) (merge_condition : string)
  : M EngineError unit :=
  when (String.eqb merge_condition "update")
    (call (execute target [when_matched_update_all])) ;;;
  when (String.eqb merge_condition "insert")
    (call (execute target [when_not_matched_insert_all])) ;;;
  when (String.eqb merge_condition "delete")
    (call (execute target [when_matched_delete])) ;;;
  when (String.eqb merge_condition "upsert")
    (call (execute target
             [when_matched_update_all; when_not_matched_insert_all])) ;;;
  when (String.eqb merge_condition "upsert_delete")
    (call (execute target
             [when_matched_update_all; when_not_matched_insert_all;
              when_not_matched_by_source_delete])).

(** [merge_condition in ["insert", "upsert"]] *)
Definition falls_back (merge_condition : string) : bool :=
  String.eqb merge_condition "insert" || String.eqb merge_condition "upsert".

(** The body of the [try] statement of [merge]. *)
Definition merge_attempt (target : TablePath) (df : DataFrame)
    (so : option Options) (delta_merge_options : MergeOptions)
    (merge_condition : string) : M EngineError unit :=
  call (write_delta_merge target df so delta_merge_options) ;;;
  merge_actions target merge_condition.

Definition merge (table_name : string) (df : DataFrame)
    (merge_condition : string) (delta_write_options : option Options)
  : M Exn unit :=
  base_table <- lookup_table table_name ;;
  if negb (validate_schema base_table df) then raise schema_mismatch
  else
    let primary_keys := primary_keys base_table in
    let delta_write_options :=
      with_description delta_write_options primary_keys in
    let delta_merge_options :=
      {| predicate := merge_predicate primary_keys;
         source_alias := "s"; target_alias := "t" |} in
    target <- table_path table_name ;;
    so <- gets storage_options ;;
    catch
      (merge_attempt target df so delta_merge_options merge_condition)
      (fun e =>
         match e with
         | TableNotFoundError _ =>
             if falls_back merge_condition then
               propagate
                 (call (write_delta target ModeAppend df delta_write_options so))
             else raise (no_data_to_merge merge_condition e)
         | _ => raise (merge_failed e)
         end).

(** The outcome of an engine call that returns nothing of interest. *)
Definition unit_outcome {A} (o : Outcome EngineError A) : Outcome EngineError unit :=
  match o with
  | Returned _ => Returned tt
  | Raised e => Raised e
  end.

Definition run_execute (target : TablePath) (clauses : list MergeClause)
    (st : Manager) : Outcome EngineError unit * Manager :=
  (unit_outcome (engine (calls st) (execute target clauses)),
   log_call (execute target clauses) st).

(** The handler of the [try] statement of [merge]. *)
Definition merge_handler (target : TablePath) (df : DataFrame)
    (so : option Options) (delta_write_options : Options)
    (merge_condition : string) (e : EngineError) : M Exn unit :=
  match e with
  | TableNotFoundError _ =>
      if falls_back merge_condition then
        propagate
          (call (write_delta target ModeAppend df delta_write_options so))
      else raise (no_data_to_merge merge_condition e)
  | _ => raise (merge_failed e)
  end.

Definition merge_options (base_table : BaseTable) : MergeOptions :=
  {| predicate := merge_predicate (primary_keys base_table);
     source_alias := "s"; target_alias := "t" |}.

Definition overwrite (table_name : string) (df : DataFrame)
    (delta_write_options : option Options) : M Exn unit :=
  base_table <- lookup_table table_name ;;
  if negb (validate_schema base_table df) then raise schema_mismatch
  else
    let delta_write_options :=
      with_description delta_write_options (primary_keys base_table) in
    target <- table_path table_name ;;
    so <- gets storage_options ;;
    propagate (call (write_delta target ModeOverwrite df delta_write_options so)).

Definition no_such_data (table_name : string) (e : EngineError) : Exn :=
  ValueError
    ("Table '" +:+ table_name +:+ "' does not exist or has no data: " +:+ str e)
    (Some e).

Definition get_data_frame (table_name : string) : M Exn DataFrame :=
  target <- table_path table_name ;;
  so <- gets storage_options ;;
  catch (call (read_delta target so))
    (fun e =>
       match e with
       | TableNotFoundError _ =>
           catalog <- gets tables ;;
           match catalog !! table_name with
           | Some base_table => ret (empty_frame (table_schema base_table))
           | None => raise (no_such_data table_name e)
           end
       | _ => raise (Propagated e)
       end).

Definition get_lazy_frame (table_name : string) : M Exn LazyFrame :=
  target <- table_path table_name ;;
  so <- gets storage_options ;;
  catch (call (scan_delta target so))
    (fun e =>
       match e with
       | TableNotFoundError _ =>
           catalog <- gets tables ;;
           match catalog !! table_name with
           | Some base_table =>
               ret (LazyOf (empty_frame (table_schema base_table)))
           | None => raise (no_such_data table_name e)
           end
       | _ => raise (Propagated e)
       end).

Definition optimize_table (table_name : string)
    (target_size max_concurrent_tasks : option Z)
    (writer_properties : option Options) : M Exn Options :=
  target <- table_path table_name ;;
  so <- gets storage_options ;;
  propagate (call (DeltaTable target so)) ;;;
  propagate
    (call (compact target target_size max_concurrent_tasks writer_properties)).

Definition vacuum_table (table_name : string) (retention_hours : option Z)
    (enforce_retention_duration : bool) : M Exn (list string) :=
  target <- table_path table_name ;;
  so <- gets storage_options ;;
  propagate (call (DeltaTable target so)) ;;;
  propagate
    (call (vacuum target retention_hours false enforce_retention_duration)).

Definition get_table_info (table_name : string) : M Exn TableInfo :=
  table_path <- table_path table_name ;;
  so <- gets storage_options ;;
  propagate (call (DeltaTable table_path so)) ;;;
  base_table <- lookup_table table_name ;;
  v <- propagate (call (version table_path)) ;;
  md <- propagate (call (metadata table_path)) ;;
  files <- propagate (call (glob table_path "*.parquet")) ;;
  ret {| info_exists := true; info_version := v; info_metadata := md;
         info_size := length files;
         info_schema := table_schema base_table;
         info_primary_keys := primary_keys base_table |}.

Fixpoint table_infos (names : list string) : M Exn (list (string * TableInfo)) :=
  match names with
  | [] => ret []
  | name :: rest =>
      info <- get_table_info name ;;
      infos <- table_infos rest ;;
      ret ((name, info) :: infos)
  end.

(** [{name: self.get_table_info(name) for name in self.tables}]; the names
    are visited in the order of [map_to_list], the dict's insertion order
    not being kept by the catalog map. *)
Definition list_tables : M Exn (list (string * TableInfo)) :=
  catalog <- gets tables ;;
  table_infos (map fst (map_to_list catalog)).

Definition get_table_schema (table_name : string) : M Exn Schema :=
  base_table <- lookup_table table_name ;;
  ret (table_schema base_table).

End BaseTableManager.

(** ** [LakeManager], the facade *)

(** What a facade call hands back. *)
Inductive Value :=
| VNone
| VBool (b : bool)
| VFrame (df : DataFrame)
| VLazy (lf : LazyFrame)
| VInfo (info : TableInfo)
| VInfos (infos : list (string * TableInfo))
| VSchema (schema : Schema).

Module LakeManager.

(** The request models: a pydantic model collects the errors of all its
    fields and raises one [ValidationError] when there are any. *)

Definition validate_table_name (v : string) : list string :=
  if PyStr.blank v then ["Table name cannot be empty"] else [].

(** The [Literal] annotation of [MergeOperationModel.merge_condition]. *)
Definition merge_conditions : list string :=
  ["update"; "insert"; "delete"; "upsert"; "upsert_delete"].

Definition validate_merge_condition (v : string) : list string :=
  if existsb (String.eqb v) merge_conditions then []
  else ["Input should be 'update', 'insert', 'delete', 'upsert' or 'upsert_delete'"].

Definition model (errors : list string) : M Exn unit :=
  match errors with
  | [] => ret tt
  | _ => raise (ValidationError errors)
  end.

Definition TableCreateModel (table_name : string) : M Exn unit :=
  model (validate_table_name table_name).

Definition TableOperationModel (table_name : string) : M Exn unit :=
  model (validate_table_name table_name).

Definition MergeOperationModel (table_name merge_condition : string) : M Exn unit :=
  model (validate_table_name table_name ++ validate_merge_condition merge_condition).

Definition OptimizeTableModel : M Exn unit := model [].

Definition VacuumTableModel : M Exn unit := model [].

Definition TableNameModel (table_name : string) : M Exn unit :=
  model (validate_table_name table_name).

Definition unknown_table (table_name : string) : Exn :=
  ValueError ("Table " +:+ table_name +:+ " does not exist") None.

Definition duplicate_table (table_name : string) : Exn :=
  ValueError ("Table " +:+ table_name +:+ " already exists") None.

Definition _check_table_exists (table_name : string) : M Exn unit :=
  catalog <- gets tables ;;
  match catalog !! table_name with
  | None => raise (unknown_table table_name)
  | Some _ => ret tt
  end.

Definition _check_table_not_exists (table_name : string) : M Exn unit :=
  catalog <- gets tables ;;
  match catalog !! table_name with
  | Some _ => raise (duplicate_table table_name)
  | None => ret tt
  end.

Section Facade.

Variable engine : Engine.
Variable validate_schema : BaseTable -> DataFrame -> bool.

(** [BaseTableManager.delete_table] is abstract: each storage backend
    brings its own. *)
Variable backend_delete_table : string -> M Exn bool.

Definition create_table (table_name : string) (table_schema : Schema)
    (primary_keys : PrimaryKeys) : M Exn unit :=
  TableCreateModel table_name ;;;
  _check_table_not_exists table_name ;;;
  create_table table_name table_schema primary_keys.

Definition append_table (table_name : string) (df : DataFrame)
    (delta_write_options : option Options) : M Exn unit :=
  TableOperationModel table_name ;;;
  _check_table_exists table_name ;;;
  append engine validate_schema table_name df delta_write_options.

Definition merge_table (table_name : string) (df : DataFrame)
    (merge_condition : string) (delta_write_options : option Options)
  : M Exn unit :=
  MergeOperationModel table_name merge_condition ;;;
  _check_table_exists table_name ;;;
  merge engine validate_schema table_name df merge_condition delta_write_options.

Definition overwrite_table (table_name : string) (df : DataFrame)
    (delta_write_options : option Options) : M Exn unit :=
  TableOperationModel table_name ;;;
  _check_table_exists table_name ;;;
  overwrite engine validate_schema table_name df delta_write_options.

Definition get_data_frame (table_name : string) : M Exn DataFrame :=
  TableNameModel table_name ;;;
  _check_table_exists table_name ;;;
  get_data_frame engine table_name.

Definition get_lazy_frame (table_name : string) : M Exn LazyFrame :=
  TableNameModel table_name ;;;
  _check_table_exists table_name ;;;
  get_lazy_frame engine table_name.

Definition optimize_table (table_name : string) (target_size : Z)
    (max_concurrent_tasks : option Z) (writer_properties : option Options)
  : M Exn unit :=
  OptimizeTableModel ;;;
  _check_table_exists table_name ;;;
  optimize_table engine table_name (Some target_size) max_concurrent_tasks
    writer_properties ;;;
  ret tt.

Definition vacuum_table (table_name : string) (retention_hours : option Z)
    (enforce_retention_duration : bool) : M Exn unit :=
  VacuumTableModel ;;;
  _check_table_exists table_name ;;;
  vacuum_table engine table_name retention_hours enforce_retention_duration ;;;
  ret tt.

Definition list_tables : M Exn (list (string * TableInfo)) :=
  list_tables engine.

Definition get_table_info (table_name : string) : M Exn TableInfo :=
  TableNameModel table_name ;;;
  _check_table_exists table_name ;;;
  get_table_info engine table_name.

Definition get_table_schema (table_name : string) : M Exn Schema :=
  TableNameModel table_name ;;;
  _check_table_exists table_name ;;;
  get_table_schema table_name.

Definition delete_table (table_name : string) : M Exn bool :=
  TableNameModel table_name ;;;
  _check_table_exists table_name ;;;
  backend_delete_table table_name.

End Facade.

End LakeManager.

(** ** The facade operations as one type *)

Inductive Op :=
| op_create_table (table_name : string) (table_schema : Schema)
    (primary_keys : PrimaryKeys)
| op_append_table (table_name : string) (df : DataFrame)
    (delta_write_options : option Options)
| op_merge_table (table_name : string) (df : DataFrame)
    (merge_condition : string) (delta_write_options : option Options)
| op_overwrite_table (table_name : string) (df : DataFrame)
    (delta_write_options : option Options)
| op_get_data_frame (table_name : string)
| op_get_lazy_frame (table_name : string)
| op_optimize_table (table_name : string) (target_size : Z)
    (max_concurrent_tasks : option Z) (writer_properties : option Options)
| op_vacuum_table (table_name : string) (retention_hours : option Z)
    (enforce_retention_duration : bool)
| op_list_tables
| op_get_table_info (table_name : string)
| op_get_table_schema (table_name : string)
| op_delete_table (table_name : string).

(** The table a facade call names; [list_tables] names none. *)
Definition op_table (op : Op) : option string :=
  match op with
  | op_create_table n _ _ | op_append_table n _ _ | op_merge_table n _ _ _
  | op_overwrite_table n _ _ | op_get_data_frame n | op_get_lazy_frame n
  | op_optimize_table n _ _ _ | op_vacuum_table n _ _ | op_get_table_info n
  | op_get_table_schema n | op_delete_table n => Some n
  | op_list_tables => None
  end.

Definition is_create (op : Op) : bool :=
  match op with op_create_table _ _ _ => true | _ => false end.

Definition is_delete (op : Op) : bool :=
  match op with op_delete_table _ => true | _ => false end.

(** The errors the request model of a call reports. *)
Definition request_errors (op : Op) : list string :=
  match op with
  | op_create_table n _ _ | op_append_table n _ _ | op_overwrite_table n _ _
  | op_get_data_frame n | op_get_lazy_frame n | op_get_table_info n
  | op_get_table_schema n | op_delete_table n =>
      LakeManager.validate_table_name n
  | op_merge_table n _ c _ =>
      LakeManager.validate_table_name n ++ LakeManager.validate_merge_condition c
  | op_optimize_table _ _ _ _ | op_vacuum_table _ _ _ | op_list_tables => []
  end.

(** How a facade call on a name outside the catalog is turned down: by the
    request model when it reports errors, by the existence check if not. *)
Definition rejection (table_name : string) (errors : list string) : Exn :=
  match errors with
  | [] => LakeManager.unknown_table table_name
  | _ :: _ => ValidationError errors
  end.

Definition returning {A} (f : A -> Value) (m : M Exn A) : M Exn Value :=
  a <- m ;; ret (f a).

Section Run.

Variable engine : Engine.
Variable validate_schema : BaseTable -> DataFrame -> bool.
Variable backend_delete_table : string -> M Exn bool.

(** A call on the facade. *)
Definition run (op : Op) : M Exn Value :=
  match op with
  | op_create_table n s pk =>
      returning (fun _ => VNone) (LakeManager.create_table n s pk)
  | op_append_table n df o =>
      returning (fun _ => VNone)
        (LakeManager.append_table engine validate_schema n df o)
  | op_merge_table n df c o =>
      returning (fun _ => VNone)
        (LakeManager.merge_table engine validate_schema n df c o)
  | op_overwrite_table n df o =>
      returning (fun _ => VNone)
        (LakeManager.overwrite_table engine validate_schema n df o)
  | op_get_data_frame n => returning VFrame (LakeManager.get_data_frame engine n)
  | op_get_lazy_frame n => returning VLazy (LakeManager.get_lazy_frame engine n)
  | op_optimize_table n ts mct wp =>
      returning (fun _ => VNone) (LakeManager.optimize_table engine n ts mct wp)
  | op_vacuum_table n rh e =>
      returning (fun _ => VNone) (LakeManager.vacuum_table engine n rh e)
  | op_list_tables => returning VInfos (LakeManager.list_tables engine)
  | op_get_table_info n => returning VInfo (LakeManager.get_table_info engine n)
  | op_get_table_schema n => returning VSchema (LakeManager.get_table_schema n)
  | op_delete_table n =>
      returning VBool (LakeManager.delete_table backend_delete_table n)
  end.

End Run.

(** ** The parts of the repository in modules not covered here *)

(** Modelled from the spec: [BaseTable.validate_schema] lives in
    [pdldb/base_table_validator.py], which is not covered. The spec, 4.2: true
    iff the batch's column set and per-column declared types exactly match
    the definition's schema, whatever the order of the columns. *)
Definition spec_validate_schema (base_table : BaseTable) (df : DataFrame) : bool :=
  bool_decide
    (list_to_map (df_schema df) =@{gmap string DataType}
     list_to_map (table_schema base_table)).

(** Modelled from the spec: [LocalTableManager.delete_table] lives in
    [pdldb/local_table_manager.py], which is not covered. The spec, 4.4: removes
    the catalog entry and all underlying storage for the table. *)
Definition spec_delete_table (engine : Engine) (table_name : string) : M Exn bool :=
  target <- table_path table_name ;;
  propagate (call engine (remove_storage target)) ;;;
  modify (fun st => set_tables (delete table_name (tables st)) st) ;;;
  ret true.

(** [column_type schema c] is the type [schema] gives column [c], if any. *)
Definition column_type (schema : Schema) (c : string) : option DataType :=
  (list_to_map schema : gmap string DataType) !! c.

(** Two schemas differ when some column is in one and not in the other, or
    has another type there. *)
Definition schemas_differ (s1 s2 : Schema) : Prop :=
  exists c, column_type s1 c <> column_type s2 c.

(** One equality of the join predicate. *)
Definition key_equality (col : string) : string :=
  "s." +:+ col +:+ " = t." +:+ col.

(** The spec's table of merge conditions (4.3): for each condition, the
    clauses it puts on the engine's merge primitive. Update-all on match,
    insert-all on source-side non-match, delete on match, delete on
    target-side non-match. *)
Definition condition_clauses : list (string * list MergeClause) :=
  [ ("update", [when_matched_update_all]);
    ("insert", [when_not_matched_insert_all]);
    ("delete", [when_matched_delete]);
    ("upsert", [when_matched_update_all; when_not_matched_insert_all]);
    ("upsert_delete",
      [when_matched_update_all; when_not_matched_insert_all;
       when_not_matched_by_source_delete]) ].

Definition is_execute (k : EngineCall) : bool :=
  match k with execute _ _ => true | _ => false end.

(** A column name that survives the comma-joined representation: it holds
    no comma and no white space at its ends. *)
Definition plain_column (col : string) : Prop :=
  PyStr.contains comma col = false /\ PyStr.strip col = col.

(** An engine call that carries [primary_keys] as the [description] write
    option. *)
Definition describes (primary_keys : string) (k : EngineCall) : Prop :=
  match k with
  | write_delta _ _ _ delta_write_options _ =>
      delta_write_options !! "description" = Some (PyStr primary_keys)
  | _ => False
  end.

(** ** A sample lake *)

Module Sample.

Definition schema : Schema := [("id", Int64); ("v", Utf8)].

Definition T : BaseTable := mkBaseTable "T" schema "id".

(** A lake whose catalog declares the one table [T]; nothing was called. *)
Definition lake : Manager := mkManager "data" None {["T" := T]} [].

(** A lake without tables. *)
Definition empty_lake : Manager := mkManager "data" None ∅ [].

(** A batch with the columns of [schema], in another order. *)
Definition batch : DataFrame :=
  mkDataFrame [("v", Utf8); ("id", Int64)] [[PyStr "b"; PyInt 1]; [PyStr "c"; PyInt 2]].

(** A batch whose column [id] has another type. *)
Definition bad_batch : DataFrame :=
  mkDataFrame [("id", Utf8); ("v", Utf8)] [[PyStr "1"; PyStr "b"]].

(** An engine under which no table has storage yet: what opens a table
    raises [TableNotFoundError], a plain write creates it. *)
Definition fresh_engine : Engine :=
  fun _ c =>
    match c return Outcome EngineError (ret_type c) with
    | write_delta _ _ _ _ _ => Returned tt
    | remove_storage _ => Returned tt
    | glob _ _ => Returned []
    | write_delta_merge _ _ _ _ | execute _ _ | read_delta _ _
    | scan_delta _ _ | DeltaTable _ _ | compact _ _ _ _ | vacuum _ _ _ _
    | version _ | metadata _ =>
        Raised (TableNotFoundError "no log files")
    end.

(** An engine under which every call returns. *)
Definition ready_engine : Engine :=
  fun _ c =>
    match c return Outcome EngineError (ret_type c) with
    | write_delta _ _ _ _ _ | write_delta_merge _ _ _ _ | execute _ _
    | DeltaTable _ _ | remove_storage _ => Returned tt
    | read_delta _ _ => Returned (empty_frame schema)
    | scan_delta t _ => Returned (LazyScan t)
    | compact _ _ _ _ | metadata _ => Returned ∅
    | vacuum _ _ _ _ | glob _ _ => Returned []
    | version _ => Returned 0%Z
    end.

End Sample.

(** A computation that leaves the catalog as it found it. *)
Definition keeps_catalog {X A} (m : M X A) : Prop :=
  forall st, tables (snd (m st)) = tables st.

(** ** Vocabulary for the further properties *)

(** [LakeManagerInitModel.validate_base_path] *)
Definition validate_base_path (v : string) : list string :=
  if PyStr.blank v then ["Base path cannot be empty"] else [].

(** [LakeManager.__init__]: the request model, then the two attributes. *)
Definition LakeManager_init (base_path : string)
    (storage_options : option Options) : Outcome Exn (string * option Options) :=
  match validate_base_path base_path with
  | [] => Returned (base_path, storage_options)
  | errors => Raised (ValidationError errors)
  end.

(** Every character of the string is white space. *)
Fixpoint all_space (s : string) : bool :=
  match s with
  | EmptyString => true
  | String a s' => PyStr.isspace a && all_space s'
  end.

(** [part] is the column name [col] with white space around it, as it may
    be typed in a comma-separated key string. *)
Definition spaced (part col : string) : Prop :=
  exists l r, all_space l = true /\ all_space r = true /\ part = l +:+ col +:+ r.

(** The manager after some more engine calls, all else the same. *)
Definition log_calls (l : list EngineCall) (st : Manager) : Manager :=
  {| base_path := base_path st; storage_options := storage_options st;
     tables := tables st; calls := calls st ++ l |}.

(** An engine under which no call raises. *)
Definition always_returns (engine : Engine) : Prop :=
  forall history c, exists v, engine history c = Returned v.

(** Every catalog entry sits under a name the request models accept, and
    bears that name. *)
Definition catalog_wf (st : Manager) : Prop :=
  forall n bt, tables st !! n = Some bt -> PyStr.blank n = false /\ name bt = n.

(** What a facade call asks of the catalog once its request model is
    satisfied. *)
Definition precondition (op : Op) (st : Manager) : Prop :=
  match op with
  | op_create_table n _ _ => tables st !! n = None
  | op_list_tables => True
  | op_append_table n _ _ | op_merge_table n _ _ _ | op_overwrite_table n _ _
  | op_get_data_frame n | op_get_lazy_frame n | op_optimize_table n _ _ _
  | op_vacuum_table n _ _ | op_get_table_info n | op_get_table_schema n
  | op_delete_table n => is_Some (tables st !! n)
  end.

Section ManagerRun.

Variable engine : Engine.
Variable validate_schema : BaseTable -> DataFrame -> bool.
Variable backend_delete_table : string -> M Exn bool.

(** The method of the table manager a facade call delegates to; the facade
    drops what [optimize_table] and [vacuum_table] return. *)
Definition manager_run (op : Op) : M Exn Value :=
  match op with
  | op_create_table n s pk => returning (fun _ => VNone) (create_table n s pk)
  | op_append_table n df o =>
      returning (fun _ => VNone) (append engine validate_schema n df o)
  | op_merge_table n df c o =>
      returning (fun _ => VNone) (merge engine validate_schema n df c o)
  | op_overwrite_table n df o =>
      returning (fun _ => VNone) (overwrite engine validate_schema n df o)
  | op_get_data_frame n => returning VFrame (get_data_frame engine n)
  | op_get_lazy_frame n => returning VLazy (get_lazy_frame engine n)
  | op_optimize_table n ts mct wp =>
      returning (fun _ => VNone) (optimize_table engine n (Some ts) mct wp)
  | op_vacuum_table n rh e =>
      returning (fun _ => VNone) (vacuum_table engine n rh e)
  | op_list_tables => returning VInfos (list_tables engine)
  | op_get_table_info n => returning VInfo (get_table_info engine n)
  | op_get_table_schema n => returning VSchema (get_table_schema n)
  | op_delete_table n => returning VBool (backend_delete_table n)
  end.

(** A caller making facade calls one after the other, going on after a
    call that raised. *)
Fixpoint run_all (ops : list Op) (st : Manager) : Manager :=
  match ops with
  | [] => st
  | op :: rest => run_all rest (snd (run engine validate_schema backend_delete_table op st))
  end.

End ManagerRun.

(** * Properties *)

(** ** Strings *)

Module PyStrFacts.
Import PyStr.

Lemma split_not_nil c s : split c s <> [].
Proof.
  destruct s as [|a s]; simpl; [discriminate|].
  destruct (Ascii.eqb a c); [discriminate|].
  destruct (split c s); discriminate.
Qed.

Lemma split_free c s : contains c s = false -> split c s = [s].
Proof.
  induction s as [|a s IH]; simpl; [reflexivity|].
  destruct (Ascii.eqb a c); [discriminate|].
  intros H. rewrite (IH H). reflexivity.
Qed.

Lemma split_app c p s :
  contains c p = false ->
  split c (p +:+ String c s) = p :: split c s.
Proof.
  induction p as [|a p IH]; simpl.
  - intros _. rewrite Ascii.eqb_refl. reflexivity.
  - destruct (Ascii.eqb a c); [discriminate|].
    intros H. rewrite (IH H). reflexivity.
Qed.

Lemma contains_app_sep c p s : contains c (p +:+ String c s) = true.
Proof.
  induction p as [|a p IH]; simpl.
  - rewrite Ascii.eqb_refl. reflexivity.
  - destruct (Ascii.eqb a c); [reflexivity|exact IH].
Qed.

(** Splitting undoes joining when no part holds the separator. *)
Lemma split_join c l :
  l <> [] ->
  Forall (fun p => contains c p = false) l ->
  split c (join (String c EmptyString) l) = l.
Proof.
  intros Hne Hall. induction Hall as [|p l Hp Hl IH]; [congruence|].
  destruct l as [|q l].
  - simpl. apply split_free, Hp.
  - change (join (String c EmptyString) (p :: q :: l))
      with (p +:+ String c (join (String c EmptyString) (q :: l))).
    rewrite (split_app _ _ _ Hp), IH; [reflexivity|discriminate].
Qed.

Lemma contains_join2 c p q l :
  contains c (join (String c EmptyString) (p :: q :: l)) = true.
Proof.
  change (join (String c EmptyString) (p :: q :: l))
    with (p +:+ String c (join (String c EmptyString) (q :: l))).
  apply contains_app_sep.
Qed.

End PyStrFacts.

(** ** Running the monad *)

Ltac unfold_monad :=
  unfold propagate, when, lookup_table, table_path, call, bind, catch, ret,
    raise, gets, modify in *.

Lemma keeps_ret {X A} (a : A) : keeps_catalog (@ret X A a).
Proof. intros st. reflexivity. Qed.

Lemma keeps_raise {X A} (x : X) : keeps_catalog (@raise X A x).
Proof. intros st. reflexivity. Qed.

Lemma keeps_gets {X A} (f : Manager -> A) : keeps_catalog (@gets X A f).
Proof. intros st. reflexivity. Qed.

Lemma keeps_bind {X A B} (m : M X A) (k : A -> M X B) :
  keeps_catalog m -> (forall a, keeps_catalog (k a)) -> keeps_catalog (bind m k).
Proof.
  intros Hm Hk st. unfold bind. specialize (Hm st).
  destruct (m st) as [[x|a] st']; simpl in *; [exact Hm|].
  rewrite Hk. exact Hm.
Qed.

Lemma keeps_catch {X Y A} (m : M X A) (h : X -> M Y A) :
  keeps_catalog m -> (forall x, keeps_catalog (h x)) -> keeps_catalog (catch m h).
Proof.
  intros Hm Hh st. unfold catch. specialize (Hm st).
  destruct (m st) as [[x|a] st']; simpl in *; [|exact Hm].
  rewrite Hh. exact Hm.
Qed.

Lemma keeps_when {X} b (m : M X unit) : keeps_catalog m -> keeps_catalog (when b m).
Proof. intros Hm. destruct b; [exact Hm|apply keeps_ret]. Qed.

Lemma keeps_call engine c : keeps_catalog (call engine c).
Proof. intros st. reflexivity. Qed.

Lemma keeps_propagate {A} (m : M EngineError A) :
  keeps_catalog m -> keeps_catalog (propagate m).
Proof. intros Hm. apply keeps_catch; [exact Hm|intros; apply keeps_raise]. Qed.

Lemma keeps_lookup_table n : keeps_catalog (lookup_table n).
Proof. intros st. unfold lookup_table. destruct (tables st !! n); reflexivity. Qed.

Lemma keeps_table_path {X} n : keeps_catalog (@table_path X n).
Proof. intros st. reflexivity. Qed.

Lemma keeps_model errors : keeps_catalog (LakeManager.model errors).
Proof. destruct errors; [apply keeps_ret|apply keeps_raise]. Qed.

Create HintDb catalog.
#[local] Hint Resolve keeps_ret keeps_raise keeps_gets keeps_call
  keeps_lookup_table keeps_table_path keeps_model : catalog.

Ltac keeps_step :=
  lazymatch goal with
  | |- keeps_catalog (bind _ _) => apply keeps_bind; [|intros ?; cbv beta]
  | |- keeps_catalog (catch _ _) => apply keeps_catch; [|intros ?; cbv beta]
  | |- keeps_catalog (propagate _) => apply keeps_propagate
  | |- keeps_catalog (when _ _) => apply keeps_when
  | |- keeps_catalog (call ?e ?c) => exact (keeps_call e c)
  | |- keeps_catalog (if ?b then _ else _) => destruct b
  | |- keeps_catalog (match ?x with _ => _ end) => destruct x
  | |- keeps_catalog _ => solve [auto with catalog]
  end.

Ltac keeps := cbv zeta; repeat (keeps_step; cbv zeta).

Section ManagerFacts.

Variable engine : Engine.
Variable validate_schema : BaseTable -> DataFrame -> bool.

Lemma keeps_append n df o : keeps_catalog (append engine validate_schema n df o).
Proof. unfold append. keeps. Qed.

Lemma keeps_merge_actions t c : keeps_catalog (merge_actions engine t c).
Proof. unfold merge_actions. keeps. Qed.

Lemma keeps_merge n df c o : keeps_catalog (merge engine validate_schema n df c o).
Proof.
  pose proof keeps_merge_actions.
  unfold merge, merge_attempt. keeps.
Qed.

Lemma keeps_overwrite n df o :
  keeps_catalog (overwrite engine validate_schema n df o).
Proof. unfold overwrite. keeps. Qed.

Lemma keeps_get_data_frame n : keeps_catalog (get_data_frame engine n).
Proof. unfold get_data_frame. keeps. Qed.

Lemma keeps_get_lazy_frame n : keeps_catalog (get_lazy_frame engine n).
Proof. unfold get_lazy_frame. keeps. Qed.

Lemma keeps_optimize_table n ts mct wp :
  keeps_catalog (optimize_table engine n ts mct wp).
Proof. unfold optimize_table. keeps. Qed.

Lemma keeps_vacuum_table n rh e : keeps_catalog (vacuum_table engine n rh e).
Proof. unfold vacuum_table. keeps. Qed.

Lemma keeps_get_table_info n : keeps_catalog (get_table_info engine n).
Proof. unfold get_table_info. keeps. Qed.

Lemma keeps_table_infos names : keeps_catalog (table_infos engine names).
Proof.
  induction names as [|n names IH]; simpl; [apply keeps_ret|].
  pose proof (keeps_get_table_info n). keeps.
Qed.

Lemma keeps_list_tables : keeps_catalog (list_tables engine).
Proof. unfold list_tables. pose proof keeps_table_infos. keeps. Qed.

Lemma keeps_get_table_schema n : keeps_catalog (get_table_schema n).
Proof. unfold get_table_schema. keeps. Qed.

End ManagerFacts.

(** ** The steps of [merge] *)

Section MergeFacts.

Variable engine : Engine.
Variable validate_schema : BaseTable -> DataFrame -> bool.

Lemma merge_run st n bt df c o :
  tables st !! n = Some bt ->
  validate_schema bt df = true ->
  merge engine validate_schema n df c o st =
  catch
    (merge_attempt engine (mkTablePath (base_path st) n) df
       (storage_options st) (merge_options bt) c)
    (merge_handler engine (mkTablePath (base_path st) n) df (storage_options st)
       (with_description o (primary_keys bt)) c)
    st.
Proof.
  intros Ht Hv. unfold merge, merge_handler. unfold_monad.
  rewrite Ht. simpl. rewrite Hv. reflexivity.
Qed.

Ltac one_execute cl :=
  right; exists cl; unfold_monad; simpl;
  match goal with
  | |- context [?eng (calls ?st) (execute ?t cl)] =>
      destruct (eng (calls st) (execute t cl)) as [?|[]]; reflexivity
  end.

(** At most one of the five tests holds, so [merge_actions] either does
    nothing or makes one [execute] call. *)
Lemma merge_actions_cases target c st :
  merge_actions engine target c st = (Returned tt, st) \/
  exists clauses,
    merge_actions engine target c st = run_execute engine target clauses st.
Proof.
  unfold merge_actions, run_execute.
  destruct (String.eqb_spec c "update") as [->|H1];
    [one_execute [when_matched_update_all]|].
  destruct (String.eqb_spec c "insert") as [->|H2];
    [one_execute [when_not_matched_insert_all]|].
  destruct (String.eqb_spec c "delete") as [->|H3];
    [one_execute [when_matched_delete]|].
  destruct (String.eqb_spec c "upsert") as [->|H4];
    [one_execute [when_matched_update_all; when_not_matched_insert_all]|].
  destruct (String.eqb_spec c "upsert_delete") as [->|H5];
    [one_execute [when_matched_update_all; when_not_matched_insert_all;
                  when_not_matched_by_source_delete]|].
  left. reflexivity.
Qed.

Lemma merge_attempt_calls target df so dmo c st out st1 :
  merge_attempt engine target df so dmo c st = (out, st1) ->
  calls st1 = calls st ++ [write_delta_merge target df so dmo] \/
  exists clauses,
    calls st1 =
    calls st ++ [write_delta_merge target df so dmo; execute target clauses].
Proof.
  unfold merge_attempt, bind. unfold call at 1.
  destruct (engine (calls st) (write_delta_merge target df so dmo)) as [e|[]].
  - intros [= _ <-]. left. reflexivity.
  - destruct (merge_actions_cases target c
                (log_call (write_delta_merge target df so dmo) st))
      as [->|[clauses ->]].
    + intros [= _ <-]. left. reflexivity.
    + unfold run_execute. intros [= _ <-]. right. exists clauses.
      simpl. rewrite <- app_assoc. reflexivity.
Qed.

(** The engine calls of a [merge] that passed the schema check start with
    the merge-mode [write_delta]. *)
Lemma merge_calls st n bt df c o :
  tables st !! n = Some bt ->
  validate_schema bt df = true ->
  exists rest,
    calls (snd (merge engine validate_schema n df c o st)) =
    calls st ++
      write_delta_merge (mkTablePath (base_path st) n) df (storage_options st)
        (merge_options bt) :: rest.
Proof.
  intros Ht Hv. rewrite (merge_run _ _ _ _ _ _ Ht Hv). unfold catch.
  destruct (merge_attempt _ _ _ _ _ _ _) as [out st1] eqn:Hat.
  assert (exists l, calls st1 = calls st ++
            write_delta_merge (mkTablePath (base_path st) n) df
              (storage_options st) (merge_options bt) :: l) as [l Hl].
  { destruct (merge_attempt_calls _ _ _ _ _ _ _ _ Hat) as [->|[cl ->]]; eauto. }
  destruct out as [e|[]]; simpl; [|eauto].
  unfold merge_handler.
  destruct e; [destruct (falls_back c)|]; simpl; eauto.
  unfold propagate, catch, call, raise.
  destruct (engine _ _); simpl; rewrite Hl, <- app_assoc; simpl; eauto.
Qed.

(** When the table has no storage, opening it for the merge already fails. *)
Lemma merge_attempt_not_found target df so dmo c st e :
  engine (calls st) (write_delta_merge target df so dmo) = Raised e ->
  merge_attempt engine target df so dmo c st =
  (Raised e, log_call (write_delta_merge target df so dmo) st).
Proof.
  intros H. unfold merge_attempt, bind. unfold call at 1. rewrite H. reflexivity.
Qed.

End MergeFacts.

(** ** Merging into a table without storage *)

Section MergeNotFound.

Variable engine : Engine.
Variable validate_schema : BaseTable -> DataFrame -> bool.

(** C1. For a declared table and a batch that passes the schema check, when
    the merge attempt ends with the engine's table-not-found error, [merge]
    with condition insert or upsert makes one more engine call, the append of
    the whole source batch, and ends as that call ends; with condition
    update, delete or upsert_delete it raises the no-data-to-merge error and
    calls the engine no more: the log holds the failed attempt only, the
    opening call and at most one execute call, and no plain write. *)
Theorem merge_without_storage st n bt df c o msg st1 :
  tables st !! n = Some bt ->
  validate_schema bt df = true ->
  let target := mkTablePath (base_path st) n in
  let so := storage_options st in
  let fallback :=
    write_delta target ModeAppend df (with_description o (primary_keys bt)) so in
  merge_attempt engine target df so (merge_options bt) c st
    = (Raised (TableNotFoundError msg), st1) ->
  (c = "insert" \/ c = "upsert" ->
   merge engine validate_schema n df c o st =
   (match engine (calls st1) fallback with
    | Returned _ => Returned tt
    | Raised e => Raised (Propagated e)
    end, log_call fallback st1)) /\
  (c = "update" \/ c = "delete" \/ c = "upsert_delete" ->
   merge engine validate_schema n df c o st =
   (Raised (no_data_to_merge c (TableNotFoundError msg)), st1)) /\
  (calls st1 = calls st ++ [write_delta_merge target df so (merge_options bt)] \/
   exists clauses,
     calls st1 =
     calls st ++ [write_delta_merge target df so (merge_options bt);
                  execute target clauses]).
Proof.
  intros Ht Hv target so fallback Hat.
  split; [|split].
  - intros Hc. rewrite (merge_run _ _ _ _ _ _ _ _ Ht Hv).
    unfold catch at 1. fold target so. rewrite Hat.
    unfold merge_handler. fold fallback.
    assert (falls_back c = true) as -> by (destruct Hc as [->| ->]; reflexivity).
    unfold propagate, catch, call, raise.
    destruct (engine (calls st1) fallback) as [e|[]]; reflexivity.
  - intros Hc. rewrite (merge_run _ _ _ _ _ _ _ _ Ht Hv).
    unfold catch at 1. fold target so. rewrite Hat.
    unfold merge_handler.
    assert (falls_back c = false) as ->
        by (destruct Hc as [->|[->| ->]]; reflexivity).
    reflexivity.
  - exact (merge_attempt_calls _ _ _ _ _ _ _ _ _ Hat).
Qed.

End MergeNotFound.

Lemma merge_without_storage_witness :
  merge Sample.fresh_engine spec_validate_schema "T" Sample.batch "update" None
    Sample.lake
  = (Raised (no_data_to_merge "update" (TableNotFoundError "no log files")),
     log_call
       (write_delta_merge (mkTablePath "data" "T") Sample.batch None
          (merge_options Sample.T))
       Sample.lake).
Proof.
  refine (proj1 (proj2 (merge_without_storage Sample.fresh_engine
            spec_validate_schema Sample.lake "T" Sample.T Sample.batch "update"
            None "no log files" _ _ _ _)) _).
  - reflexivity.
  - vm_compute. reflexivity.
  - reflexivity.
  - left. reflexivity.
Defined.

(** ** The actions of a merge condition *)

Section MergeActions.

Variable engine : Engine.
Variable validate_schema : BaseTable -> DataFrame -> bool.

Lemma condition_clauses_keys :
  map fst condition_clauses = LakeManager.merge_conditions.
Proof. reflexivity. Qed.

Lemma merge_actions_of target c clauses st :
  In (c, clauses) condition_clauses ->
  merge_actions engine target c st = run_execute engine target clauses st.
Proof.
  intros Hin. unfold merge_actions, run_execute. simpl in Hin.
  destruct Hin as [[= <- <-]|[[= <- <-]|[[= <- <-]|[[= <- <-]|[[= <- <-]|[]]]]]];
    unfold_monad; simpl;
    match goal with
    | |- context [engine (calls st) ?k] =>
        destruct (engine (calls st) k) as [?|[]]; reflexivity
    end.
Qed.

(** C2. For a declared table, a batch that passes the schema check and each
    of the five merge conditions, once the merge-mode [write_delta] has
    returned the merger, [merge] makes exactly one [execute] call on it, with
    exactly the clauses the spec's table gives for the condition, right after
    the opening call; whatever follows in the log is no [execute] call. *)
Theorem merge_condition_actions st n bt df c clauses o :
  tables st !! n = Some bt ->
  validate_schema bt df = true ->
  In (c, clauses) condition_clauses ->
  let target := mkTablePath (base_path st) n in
  let so := storage_options st in
  let opening := write_delta_merge target df so (merge_options bt) in
  engine (calls st) opening = Returned tt ->
  merge_attempt engine target df so (merge_options bt) c st =
    run_execute engine target clauses (log_call opening st) /\
  exists rest,
    calls (snd (merge engine validate_schema n df c o st)) =
    calls st ++ [opening; execute target clauses] ++ rest /\
    Forall (fun k => is_execute k = false) rest.
Proof.
  intros Ht Hv Hin target so opening Hopen.
  assert (merge_attempt engine target df so (merge_options bt) c st =
          run_execute engine target clauses (log_call opening st)) as Hat.
  { unfold merge_attempt, bind. unfold call at 1. fold opening. rewrite Hopen.
    apply merge_actions_of, Hin. }
  split; [exact Hat|].
  rewrite (merge_run _ _ _ _ _ _ _ _ Ht Hv). unfold catch at 1.
  fold target so. rewrite Hat. unfold run_execute.
  destruct (engine (calls (log_call opening st)) (execute target clauses))
    as [e|[]]; simpl.
  - unfold merge_handler.
    destruct e; [destruct (falls_back c)|].
    + unfold propagate, catch, call, raise.
      eexists [_].
      match goal with
      | |- context [engine ?h (write_delta ?a ?b ?c ?d ?e)] =>
          destruct (engine h (write_delta a b c d e))
      end; simpl; rewrite <- !app_assoc; simpl;
        (split; [reflexivity|repeat constructor]).
    + exists []. simpl. rewrite <- !app_assoc. simpl. auto.
    + exists []. simpl. rewrite <- !app_assoc. simpl. auto.
  - exists []. simpl. rewrite <- !app_assoc. simpl. auto.
Qed.

End MergeActions.

(** ** The join predicate *)

Lemma strip_plain_columns cols :
  Forall plain_column cols -> map PyStr.strip cols = cols.
Proof.
  induction 1 as [|col cols [_ Hs] _ IH]; simpl; [reflexivity|].
  rewrite Hs, IH. reflexivity.
Qed.

Lemma merge_predicate_single col :
  PyStr.contains comma col = false -> merge_predicate col = key_equality col.
Proof. intros H. unfold merge_predicate. rewrite H. reflexivity. Qed.

Lemma merge_predicate_columns cols :
  cols <> [] ->
  Forall plain_column cols ->
  merge_predicate (PyStr.join "," cols) =
  PyStr.join " AND " (map key_equality cols).
Proof.
  intros Hne Hall.
  assert (Forall (fun p => PyStr.contains comma p = false) cols) as Hfree
      by (eapply Forall_impl; [exact Hall|]; intros ? [? _]; assumption).
  destruct cols as [|p [|q l]]; [congruence| |].
  - apply merge_predicate_single. inversion Hfree; assumption.
  - unfold merge_predicate.
    change "," with (String comma EmptyString).
    rewrite PyStrFacts.contains_join2.
    rewrite (PyStrFacts.split_join _ _ Hne Hfree).
    rewrite (strip_plain_columns _ Hall). reflexivity.
Qed.

(** C3. The join predicate of [merge] is rebuilt from the stored
    primary-key string. For a table created with key columns that hold no
    comma and no outer white space, it is the equalities [s.col = t.col] of
    the declared columns, in declared order, joined with [ AND ] (one
    equality alone for a single key), and the merge-mode call hands it to the
    engine with source alias [s] and target alias [t]; for the keys a, b it
    is [s.a = t.a AND s.b = t.b] and for the key a it is [s.a = t.a]. *)
Theorem merge_predicate_declared (engine : Engine)
    (validate_schema : BaseTable -> DataFrame -> bool)
    st n schema pk df c o :
  declared_columns pk <> [] ->
  Forall plain_column (declared_columns pk) ->
  validate_schema (mkBaseTable n schema (composite_key pk)) df = true ->
  let wanted := PyStr.join " AND " (map key_equality (declared_columns pk)) in
  merge_predicate (composite_key pk) = wanted /\
  (exists rest,
     calls (snd (merge engine validate_schema n df c o
                   (snd (create_table n schema pk st)))) =
     calls st ++
       write_delta_merge (mkTablePath (base_path st) n) df (storage_options st)
         {| predicate := wanted; source_alias := "s"; target_alias := "t" |}
       :: rest) /\
  merge_predicate (composite_key (PkList ["a"; "b"])) = "s.a = t.a AND s.b = t.b" /\
  merge_predicate (composite_key (PkStr "a")) = "s.a = t.a".
Proof.
  intros Hne Hall Hv wanted.
  assert (merge_predicate (composite_key pk) = wanted) as Hp.
  { destruct pk as [s|l]; simpl in *.
    - apply merge_predicate_single. inversion Hall as [|? ? [H _]]; exact H.
    - apply merge_predicate_columns; assumption. }
  split; [exact Hp|]. split; [|split; reflexivity].
  rewrite <- Hp.
  apply (merge_calls engine validate_schema
           (snd (create_table n schema pk st)) n
           (mkBaseTable n schema (composite_key pk)) df c o); [|exact Hv].
  simpl. apply lookup_insert_eq.
Qed.

Lemma merge_predicate_declared_witness :
  merge_predicate (composite_key (PkList ["sequence"; "value_1"])) =
  "s.sequence = t.sequence AND s.value_1 = t.value_1".
Proof.
  refine (proj1 (merge_predicate_declared Sample.ready_engine
            spec_validate_schema Sample.empty_lake "my_table" Sample.schema
            (PkList ["sequence"; "value_1"]) Sample.batch "upsert" None _ _ _)).
  - discriminate.
  - repeat constructor.
  - vm_compute. reflexivity.
Defined.

(** C3 as first stated fails for a key column whose name holds a comma:
    the stored key is split at every comma, so the declared columns [x,y]
    and [z] give three equalities, and the single key [x,y] gives two. *)
Lemma merge_predicate_comma_in_name :
  merge_predicate (composite_key (PkList ["x,y"; "z"])) =
    "s.x = t.x AND s.y = t.y AND s.z = t.z" /\
  merge_predicate (composite_key (PkList ["x,y"; "z"])) <>
    PyStr.join " AND " (map key_equality (declared_columns (PkList ["x,y"; "z"]))) /\
  merge_predicate (composite_key (PkStr "x,y")) = "s.x = t.x AND s.y = t.y" /\
  merge_predicate (composite_key (PkStr "x,y")) <> key_equality "x,y".
Proof.
  split; [reflexivity|]. split; [vm_compute; discriminate|].
  split; [reflexivity|]. vm_compute. discriminate.
Qed.

Lemma merge_condition_actions_witness :
  merge_attempt Sample.ready_engine (mkTablePath "data" "T") Sample.batch None
    (merge_options Sample.T) "upsert_delete" Sample.lake =
  run_execute Sample.ready_engine (mkTablePath "data" "T")
    [when_matched_update_all; when_not_matched_insert_all;
     when_not_matched_by_source_delete]
    (log_call
       (write_delta_merge (mkTablePath "data" "T") Sample.batch None
          (merge_options Sample.T))
       Sample.lake).
Proof.
  refine (proj1 (merge_condition_actions Sample.ready_engine
            spec_validate_schema Sample.lake "T" Sample.T Sample.batch
            "upsert_delete" _ None _ _ _ _)).
  - reflexivity.
  - vm_compute. reflexivity.
  - simpl. auto 10.
  - reflexivity.
Defined.

(** ** The schema check before a write *)

Lemma spec_validate_schema_differ bt df :
  schemas_differ (df_schema df) (table_schema bt) ->
  spec_validate_schema bt df = false.
Proof.
  intros [c Hc]. unfold spec_validate_schema. apply bool_decide_eq_false.
  intros Heq. apply Hc. unfold column_type. rewrite Heq. reflexivity.
Qed.

Lemma spec_validate_schema_agree bt df :
  (forall c, column_type (df_schema df) c = column_type (table_schema bt) c) ->
  spec_validate_schema bt df = true.
Proof.
  intros H. unfold spec_validate_schema. apply bool_decide_eq_true.
  apply map_eq. exact H.
Qed.

Section SchemaGate.

Variable engine : Engine.
Variable validate_schema : BaseTable -> DataFrame -> bool.

(** A write on a batch the validator rejects raises before anything else
    happens. *)
Lemma rejected_batch st n bt df c o :
  tables st !! n = Some bt ->
  validate_schema bt df = false ->
  append engine validate_schema n df o st = (Raised schema_mismatch, st) /\
  merge engine validate_schema n df c o st = (Raised schema_mismatch, st) /\
  overwrite engine validate_schema n df o st = (Raised schema_mismatch, st).
Proof.
  intros Ht Hv. unfold append, merge, overwrite. unfold_monad.
  rewrite Ht. simpl. rewrite Hv. simpl. auto.
Qed.

End SchemaGate.

(** C4. For a declared table and a batch whose schema differs from the
    declared one (a column missing on one side, or a column of another
    type), [append], [merge] and [overwrite] each raise the schema-mismatch
    error and leave the manager as it was: the log of engine calls has not
    grown, no call reached the engine. *)
Theorem schema_mismatch_no_write (engine : Engine) st n bt df c o :
  tables st !! n = Some bt ->
  schemas_differ (df_schema df) (table_schema bt) ->
  append engine spec_validate_schema n df o st = (Raised schema_mismatch, st) /\
  merge engine spec_validate_schema n df c o st = (Raised schema_mismatch, st) /\
  overwrite engine spec_validate_schema n df o st = (Raised schema_mismatch, st).
Proof.
  intros Ht Hd. apply rejected_batch with (bt := bt); [exact Ht|].
  apply spec_validate_schema_differ, Hd.
Qed.

Lemma schema_mismatch_no_write_witness :
  merge Sample.ready_engine spec_validate_schema "T" Sample.bad_batch "upsert"
    None Sample.lake
  = (Raised schema_mismatch, Sample.lake).
Proof.
  refine (proj1 (proj2 (schema_mismatch_no_write Sample.ready_engine Sample.lake
            "T" Sample.T Sample.bad_batch "upsert" None _ _))).
  - reflexivity.
  - exists "id". vm_compute. discriminate.
Defined.

(** ** The description write option *)

Section Description.

Variable engine : Engine.
Variable validate_schema : BaseTable -> DataFrame -> bool.

Lemma with_description_lookup o pk :
  with_description o pk !! "description" = Some (PyStr pk).
Proof. unfold with_description. apply lookup_insert_eq. Qed.

(** C5, as amended. For a declared table and a batch that passes the schema
    check, [append] and [overwrite] make one engine call, a [write_delta]
    whose write options hold the table's primary-key string under
    [description]. [merge] first makes the merge-mode call, which carries the
    merge options (predicate and aliases) and no write options; after it come
    at most an [execute] call and, when [merge] falls back to an append, a
    [write_delta] whose write options hold the primary-key string under
    [description]. *)
Theorem description_on_writes st n bt df c o :
  tables st !! n = Some bt ->
  validate_schema bt df = true ->
  let target := mkTablePath (base_path st) n in
  let so := storage_options st in
  let described := with_description o (primary_keys bt) in
  described !! "description" = Some (PyStr (primary_keys bt)) /\
  calls (snd (append engine validate_schema n df o st)) =
    calls st ++ [write_delta target ModeAppend df described so] /\
  calls (snd (overwrite engine validate_schema n df o st)) =
    calls st ++ [write_delta target ModeOverwrite df described so] /\
  exists rest,
    calls (snd (merge engine validate_schema n df c o st)) =
      calls st ++ write_delta_merge target df so (merge_options bt) :: rest /\
    Forall (fun k => is_execute k = true \/
                     k = write_delta target ModeAppend df described so) rest.
Proof.
  intros Ht Hv target so described.
  split; [apply with_description_lookup|].
  split; [|split].
  - unfold append. unfold_monad. rewrite Ht. simpl. rewrite Hv. simpl.
    fold target so described.
    destruct (engine (calls st) (write_delta target ModeAppend df described so));
      reflexivity.
  - unfold overwrite. unfold_monad. rewrite Ht. simpl. rewrite Hv. simpl.
    fold target so described.
    destruct (engine (calls st) (write_delta target ModeOverwrite df described so));
      reflexivity.
  - rewrite (merge_run _ _ _ _ _ _ _ _ Ht Hv). unfold catch.
    fold target so described.
    destruct (merge_attempt _ _ _ _ _ _ _) as [out st1] eqn:Hat.
    assert (exists l, calls st1 = calls st ++
              write_delta_merge target df so (merge_options bt) :: l /\
              Forall (fun k => is_execute k = true \/
                       k = write_delta target ModeAppend df described so) l)
      as (l & Hl & Hex).
    { destruct (merge_attempt_calls _ _ _ _ _ _ _ _ _ Hat) as [->|[cl ->]];
        eexists; (split; [reflexivity|]); repeat constructor. }
    destruct out as [e|[]]; simpl; [|eauto].
    unfold merge_handler.
    destruct e; [destruct (falls_back c)|]; simpl; eauto.
    unfold propagate, catch, call, raise.
    exists (l ++ [write_delta target ModeAppend df described so]). split.
    + destruct (engine _ _); simpl; rewrite Hl, <- app_assoc; reflexivity.
    + apply Forall_app. split; [exact Hex|].
      constructor; [right; reflexivity|constructor].
Qed.

End Description.

Lemma description_on_writes_witness :
  calls (snd (append Sample.ready_engine spec_validate_schema "T" Sample.batch
                None Sample.lake)) =
  [write_delta (mkTablePath "data" "T") ModeAppend Sample.batch
     (with_description None "id") None].
Proof.
  refine (proj1 (proj2 (description_on_writes Sample.ready_engine
            spec_validate_schema Sample.lake "T" Sample.T Sample.batch "upsert"
            None _ _))).
  - reflexivity.
  - vm_compute. reflexivity.
Defined.

(** C5 as first stated fails for [merge]: on a table with storage, an upsert
    of a fitting batch reaches the engine as the merge-mode call and the
    [execute] call, and neither carries the [description] option. *)
Lemma merge_call_without_description :
  calls (snd (merge Sample.ready_engine spec_validate_schema "T" Sample.batch
                "upsert" None Sample.lake)) =
  [write_delta_merge (mkTablePath "data" "T") Sample.batch None
     {| predicate := "s.id = t.id"; source_alias := "s"; target_alias := "t" |};
   execute (mkTablePath "data" "T")
     [when_matched_update_all; when_not_matched_insert_all]] /\
  ~ Exists (describes "id")
      (calls (snd (merge Sample.ready_engine spec_validate_schema "T"
                     Sample.batch "upsert" None Sample.lake))).
Proof.
  assert (calls (snd (merge Sample.ready_engine spec_validate_schema "T"
                        Sample.batch "upsert" None Sample.lake)) =
          [write_delta_merge (mkTablePath "data" "T") Sample.batch None
             {| predicate := "s.id = t.id"; source_alias := "s";
                target_alias := "t" |};
           execute (mkTablePath "data" "T")
             [when_matched_update_all; when_not_matched_insert_all]]) as H
      by (vm_compute; reflexivity).
  split; [exact H|]. rewrite H.
  intros Hex. inversion Hex as [? ? Hd|? ? Hex']; subst; [exact Hd|].
  inversion Hex' as [? ? Hd|? ? Hex'']; subst; [exact Hd|].
  inversion Hex''.
Qed.

(** ** The catalog is touched by create and delete only *)

#[local] Hint Resolve keeps_append keeps_merge keeps_overwrite
  keeps_get_data_frame keeps_get_lazy_frame keeps_optimize_table
  keeps_vacuum_table keeps_get_table_info keeps_list_tables
  keeps_get_table_schema : catalog.

Lemma keeps_check_table_exists n : keeps_catalog (LakeManager._check_table_exists n).
Proof. unfold LakeManager._check_table_exists. keeps. Qed.

Lemma keeps_check_table_not_exists n :
  keeps_catalog (LakeManager._check_table_not_exists n).
Proof. unfold LakeManager._check_table_not_exists. keeps. Qed.

#[local] Hint Resolve keeps_check_table_exists keeps_check_table_not_exists
  : catalog.

Ltac unfold_operations :=
  unfold LakeManager.append_table, LakeManager.merge_table,
    LakeManager.overwrite_table, LakeManager.get_data_frame,
    LakeManager.get_lazy_frame, LakeManager.optimize_table,
    LakeManager.vacuum_table, LakeManager.list_tables,
    LakeManager.get_table_info, LakeManager.get_table_schema,
    LakeManager.delete_table, LakeManager.create_table,
    LakeManager.TableCreateModel, LakeManager.TableOperationModel,
    LakeManager.MergeOperationModel, LakeManager.OptimizeTableModel,
    LakeManager.VacuumTableModel, LakeManager.TableNameModel.

Ltac unfold_facade :=
  unfold run, returning, LakeManager.append_table, LakeManager.merge_table,
    LakeManager.overwrite_table, LakeManager.get_data_frame,
    LakeManager.get_lazy_frame, LakeManager.optimize_table,
    LakeManager.vacuum_table, LakeManager.list_tables,
    LakeManager.get_table_info, LakeManager.get_table_schema,
    LakeManager.delete_table, LakeManager.create_table,
    LakeManager.TableCreateModel, LakeManager.TableOperationModel,
    LakeManager.MergeOperationModel, LakeManager.OptimizeTableModel,
    LakeManager.VacuumTableModel, LakeManager.TableNameModel.

(** C10. Whatever the catalog, the engine and the arguments, and whether
    the call returns or raises: [append], [merge], [overwrite],
    [get_data_frame], [get_lazy_frame], [optimize_table], [vacuum_table],
    [get_table_info], [list_tables] and [get_table_schema] of the manager
    leave the mapping from table names to definitions as it was, and so does
    every call on the facade that is neither [create_table] nor
    [delete_table]. *)
Theorem catalog_unchanged (engine : Engine)
    (validate_schema : BaseTable -> DataFrame -> bool)
    (backend_delete_table : string -> M Exn bool) (st : Manager) :
  (forall n df o,
     tables (snd (append engine validate_schema n df o st)) = tables st) /\
  (forall n df c o,
     tables (snd (merge engine validate_schema n df c o st)) = tables st) /\
  (forall n df o,
     tables (snd (overwrite engine validate_schema n df o st)) = tables st) /\
  (forall n, tables (snd (get_data_frame engine n st)) = tables st) /\
  (forall n, tables (snd (get_lazy_frame engine n st)) = tables st) /\
  (forall n ts mct wp,
     tables (snd (optimize_table engine n ts mct wp st)) = tables st) /\
  (forall n rh e, tables (snd (vacuum_table engine n rh e st)) = tables st) /\
  (forall n, tables (snd (get_table_info engine n st)) = tables st) /\
  tables (snd (list_tables engine st)) = tables st /\
  (forall n, tables (snd (get_table_schema n st)) = tables st) /\
  (forall op,
     is_create op = false -> is_delete op = false ->
     tables (snd (run engine validate_schema backend_delete_table op st))
     = tables st).
Proof.
  repeat split; intros;
    try match goal with
        | |- tables (snd (?m st)) = tables st =>
            assert (keeps_catalog m) as Hk; [|exact (Hk st)]
        end.
  1-10: auto with catalog.
  destruct op; try discriminate; unfold_facade; keeps.
Qed.

Lemma catalog_unchanged_witness :
  tables (snd (run Sample.fresh_engine spec_validate_schema
                 (spec_delete_table Sample.fresh_engine)
                 (op_merge_table "T" Sample.batch "insert" None) Sample.lake))
  = tables Sample.lake.
Proof.
  pose proof (catalog_unchanged Sample.fresh_engine spec_validate_schema
                (spec_delete_table Sample.fresh_engine) Sample.lake)
    as (_ & _ & _ & _ & _ & _ & _ & _ & _ & _ & H).
  apply H; reflexivity.
Defined.

(** ** Creating a table *)

Lemma composite_key_join pk :
  composite_key pk = PyStr.join "," (declared_columns pk).
Proof. destruct pk; reflexivity. Qed.

Lemma validate_table_name_ok n :
  PyStr.blank n = false -> LakeManager.validate_table_name n = [].
Proof. intros H. unfold LakeManager.validate_table_name. rewrite H. reflexivity. Qed.

Lemma validate_table_name_blank n :
  PyStr.blank n = true ->
  LakeManager.validate_table_name n = ["Table name cannot be empty"].
Proof. intros H. unfold LakeManager.validate_table_name. rewrite H. reflexivity. Qed.

(** C6. For a name that is not blank and not yet in the catalog, any schema
    and any primary-key argument (one column name or a list of them),
    [create_table] on the facade returns and stores the definition made of
    the name, the schema as declared and the declared key columns joined
    with commas in declared order. Looking the name up afterwards returns
    that definition, [get_table_schema] returns the declared schema, and
    [get_table_info] fails only as the engine fails and otherwise reports
    the declared schema and the joined key. *)
Theorem create_then_lookup (engine : Engine) st n schema pk :
  PyStr.blank n = false ->
  tables st !! n = None ->
  let key := PyStr.join "," (declared_columns pk) in
  let definition := mkBaseTable n schema key in
  let st' := set_tables (<[n := definition]> (tables st)) st in
  LakeManager.create_table n schema pk st = (Returned tt, st') /\
  lookup_table n st' = (Returned definition, st') /\
  LakeManager.get_table_schema n st' = (Returned schema, st') /\
  match fst (LakeManager.get_table_info engine n st') with
  | Returned info => info_schema info = schema /\ info_primary_keys info = key
  | Raised (Propagated _) => True
  | Raised _ => False
  end.
Proof.
  intros Hb Hn key definition st'.
  assert (<[n := definition]> (tables st) !! n = Some definition) as Hl
      by apply lookup_insert_eq.
  subst st'. split; [|split; [|split]].
  - unfold_facade. unfold LakeManager._check_table_not_exists, create_table.
    rewrite (validate_table_name_ok _ Hb). unfold LakeManager.model.
    unfold_monad. rewrite Hn. rewrite composite_key_join. reflexivity.
  - unfold lookup_table, set_tables. simpl. rewrite Hl. reflexivity.
  - unfold_facade. unfold LakeManager._check_table_exists, get_table_schema.
    rewrite (validate_table_name_ok _ Hb). unfold LakeManager.model.
    unfold_monad. unfold set_tables. repeat (simpl; rewrite Hl). reflexivity.
  - unfold_facade. unfold LakeManager._check_table_exists, get_table_info.
    rewrite (validate_table_name_ok _ Hb). unfold LakeManager.model.
    unfold_monad. unfold set_tables. simpl. rewrite Hl.
    repeat match goal with
           | |- context [engine ?h ?k] =>
               destruct (engine h k); simpl; [exact I|]
           end.
    simpl. rewrite Hl. simpl.
    repeat match goal with
           | |- context [engine ?h ?k] =>
               destruct (engine h k); simpl; [exact I|]
           end.
    split; reflexivity.
Qed.

Lemma create_then_lookup_witness :
  LakeManager.get_table_schema "my_table"
    (snd (LakeManager.create_table "my_table" Sample.schema
            (PkList ["sequence"; "value_1"]) Sample.lake))
  = (Returned Sample.schema,
     set_tables
       (<["my_table" := mkBaseTable "my_table" Sample.schema "sequence,value_1"]>
          (tables Sample.lake))
       Sample.lake).
Proof.
  pose proof (create_then_lookup Sample.fresh_engine Sample.lake "my_table"
                Sample.schema (PkList ["sequence"; "value_1"])
                eq_refl eq_refl) as (Hc & _ & Hs & _).
  rewrite Hc. exact Hs.
Defined.

(** C7, as amended. [create_table] on a name already in the catalog raises
    and leaves the manager, its catalog included, as it was. The error is the
    duplicate-table error when the name is not blank; a blank name is turned
    down before, by the request model, with its own error. *)
Theorem create_existing st n bt schema pk :
  tables st !! n = Some bt ->
  (PyStr.blank n = false ->
   LakeManager.create_table n schema pk st =
   (Raised (LakeManager.duplicate_table n), st)) /\
  (PyStr.blank n = true ->
   LakeManager.create_table n schema pk st =
   (Raised (ValidationError ["Table name cannot be empty"]), st)) /\
  (exists e, LakeManager.create_table n schema pk st = (Raised e, st)).
Proof.
  intros Ht.
  assert (PyStr.blank n = false ->
          LakeManager.create_table n schema pk st =
          (Raised (LakeManager.duplicate_table n), st)) as H1.
  { intros Hb. unfold_facade. unfold LakeManager._check_table_not_exists.
    rewrite (validate_table_name_ok _ Hb). unfold LakeManager.model.
    unfold_monad. rewrite Ht. reflexivity. }
  assert (PyStr.blank n = true ->
          LakeManager.create_table n schema pk st =
          (Raised (ValidationError ["Table name cannot be empty"]), st)) as H2.
  { intros Hb. unfold_facade.
    rewrite (validate_table_name_blank _ Hb). reflexivity. }
  split; [exact H1|]. split; [exact H2|].
  destruct (PyStr.blank n) eqn:Hb; eauto.
Qed.

Lemma create_existing_witness :
  LakeManager.create_table "T" Sample.schema (PkStr "v") Sample.lake =
  (Raised (LakeManager.duplicate_table "T"), Sample.lake).
Proof.
  refine (proj1 (create_existing Sample.lake "T" Sample.T Sample.schema
                   (PkStr "v") _) _); reflexivity.
Defined.

(** C7 as first stated fails on a catalog that holds a blank name (a table
    directory named with one space, say): creating that name again raises the
    validation error of the request model, not the duplicate-table error. *)
Lemma create_existing_blank_name :
  let st := mkManager "data" None {[" " := mkBaseTable " " Sample.schema "id"]} [] in
  tables st !! " " = Some (mkBaseTable " " Sample.schema "id") /\
  LakeManager.create_table " " Sample.schema (PkStr "id") st =
  (Raised (ValidationError ["Table name cannot be empty"]), st) /\
  fst (LakeManager.create_table " " Sample.schema (PkStr "id") st) <>
  Raised (LakeManager.duplicate_table " ").
Proof.
  simpl. split; [reflexivity|]. split; [reflexivity|].
  vm_compute. discriminate.
Qed.

(** ** Calls on a table the catalog does not know *)

Lemma model_run errors st :
  LakeManager.model errors st =
  match errors with
  | [] => (Returned tt, st)
  | _ => (Raised (ValidationError errors), st)
  end.
Proof. destruct errors; reflexivity. Qed.

(** The shape of every facade call but [create_table] and [list_tables]:
    the request model, the existence check, then the manager. *)
Lemma guarded_unknown {A} errors n (m : M Exn A) st :
  tables st !! n = None ->
  (LakeManager.model errors ;;; LakeManager._check_table_exists n ;;; m) st =
  (Raised (rejection n errors), st).
Proof.
  intros Hn. unfold bind at 1. rewrite model_run.
  destruct errors; [|reflexivity].
  unfold LakeManager._check_table_exists. unfold_monad. rewrite Hn. reflexivity.
Qed.

Lemma returning_raised {A} (f : A -> Value) (m : M Exn A) st e st' :
  m st = (Raised e, st') -> returning f m st = (Raised e, st').
Proof. intros H. unfold returning, bind. rewrite H. reflexivity. Qed.

(** A facade call whose request is well formed and whose table is in the
    catalog is the manager's call. *)
Lemma guarded_known {A} n bt (m : M Exn A) st :
  tables st !! n = Some bt ->
  (LakeManager.model [] ;;; LakeManager._check_table_exists n ;;; m) st = m st.
Proof.
  intros Ht. unfold LakeManager._check_table_exists, LakeManager.model.
  unfold_monad. rewrite Ht. reflexivity.
Qed.

Lemma merge_table_known engine validate_schema st n bt df c o :
  tables st !! n = Some bt ->
  PyStr.blank n = false ->
  In c LakeManager.merge_conditions ->
  LakeManager.merge_table engine validate_schema n df c o st =
  merge engine validate_schema n df c o st.
Proof.
  intros Ht Hb Hc. unfold_operations.
  rewrite (validate_table_name_ok _ Hb).
  unfold LakeManager.validate_merge_condition.
  assert (existsb (String.eqb c) LakeManager.merge_conditions = true) as ->.
  { apply existsb_exists. exists c. split; [exact Hc|apply String.eqb_refl]. }
  exact (guarded_known _ _ _ _ Ht).
Qed.

Lemma append_table_known engine validate_schema st n bt df o :
  tables st !! n = Some bt ->
  PyStr.blank n = false ->
  LakeManager.append_table engine validate_schema n df o st =
  append engine validate_schema n df o st /\
  LakeManager.overwrite_table engine validate_schema n df o st =
  overwrite engine validate_schema n df o st.
Proof.
  intros Ht Hb. unfold_operations. rewrite (validate_table_name_ok _ Hb).
  split; exact (guarded_known _ _ _ _ Ht).
Qed.

Lemma get_frame_known engine st n bt :
  tables st !! n = Some bt ->
  PyStr.blank n = false ->
  LakeManager.get_data_frame engine n st = get_data_frame engine n st /\
  LakeManager.get_lazy_frame engine n st = get_lazy_frame engine n st.
Proof.
  intros Ht Hb. unfold_operations. rewrite (validate_table_name_ok _ Hb).
  split; exact (guarded_known _ _ _ _ Ht).
Qed.

Lemma request_errors_named op n :
  op_table op = Some n ->
  PyStr.blank n = false ->
  (forall df c o, op = op_merge_table n df c o ->
                  In c LakeManager.merge_conditions) ->
  request_errors op = [].
Proof.
  intros Hop Hb Hc.
  destruct op; simpl in *; try discriminate; injection Hop as ->;
    rewrite ?(validate_table_name_ok _ Hb); try reflexivity.
  specialize (Hc _ _ _ eq_refl). simpl.
  unfold LakeManager.validate_merge_condition.
  assert (existsb (String.eqb merge_condition) LakeManager.merge_conditions
          = true) as ->; [|reflexivity].
  apply existsb_exists. exists merge_condition. split; [exact Hc|].
  apply String.eqb_refl.
Qed.

(** C8, as amended. A facade call other than [create_table], on a name the
    catalog does not hold, raises and leaves the manager as it was: the
    catalog is the same and no call reached the engine. The error is the
    unknown-table error when the request model finds nothing wrong, which is
    so for every [optimize_table] and [vacuum_table] call, and for the other
    calls when the name is not blank and, for [merge_table], the condition is
    one of the five; otherwise the request model's validation error comes
    first. *)
Theorem unknown_table_rejected (engine : Engine)
    (validate_schema : BaseTable -> DataFrame -> bool)
    (backend_delete_table : string -> M Exn bool) op n st :
  is_create op = false ->
  op_table op = Some n ->
  tables st !! n = None ->
  run engine validate_schema backend_delete_table op st =
  (Raised (rejection n (request_errors op)), st) /\
  (PyStr.blank n = false ->
   (forall df c o, op = op_merge_table n df c o ->
                   In c LakeManager.merge_conditions) ->
   run engine validate_schema backend_delete_table op st =
   (Raised (LakeManager.unknown_table n), st)) /\
  (forall ts mct wp rh e,
     op = op_optimize_table n ts mct wp \/ op = op_vacuum_table n rh e ->
     run engine validate_schema backend_delete_table op st =
     (Raised (LakeManager.unknown_table n), st)).
Proof.
  intros Hcreate Hop Hn.
  assert (run engine validate_schema backend_delete_table op st =
          (Raised (rejection n (request_errors op)), st)) as Hrun.
  { destruct op; simpl in Hcreate, Hop; try discriminate; injection Hop as ->;
      simpl request_errors; unfold run; apply returning_raised;
      unfold_operations; exact (guarded_unknown _ _ _ _ Hn). }
  split; [exact Hrun|]. split.
  - intros Hb Hc. rewrite Hrun, (request_errors_named _ _ Hop Hb Hc). reflexivity.
  - intros ts mct wp rh e [-> | ->]; rewrite Hrun; reflexivity.
Qed.

Lemma unknown_table_rejected_witness :
  run Sample.ready_engine spec_validate_schema (spec_delete_table Sample.ready_engine)
    (op_delete_table "T") Sample.empty_lake
  = (Raised (LakeManager.unknown_table "T"), Sample.empty_lake).
Proof.
  refine (proj1 (unknown_table_rejected Sample.ready_engine spec_validate_schema
                   (spec_delete_table Sample.ready_engine) (op_delete_table "T")
                   "T" Sample.empty_lake _ _ _)); reflexivity.
Defined.

(** C8 as first stated fails on a blank name: [append_table] on the empty
    name, which no catalog entry bears here, raises the validation error of
    the request model, not the unknown-table error. *)
Lemma blank_name_not_unknown_table :
  tables Sample.empty_lake !! "" = None /\
  run Sample.ready_engine spec_validate_schema
    (spec_delete_table Sample.ready_engine)
    (op_append_table "" Sample.batch None) Sample.empty_lake
  = (Raised (ValidationError ["Table name cannot be empty"]), Sample.empty_lake) /\
  fst (run Sample.ready_engine spec_validate_schema
         (spec_delete_table Sample.ready_engine)
         (op_append_table "" Sample.batch None) Sample.empty_lake)
  <> Raised (LakeManager.unknown_table "").
Proof.
  split; [reflexivity|]. split; [reflexivity|].
  vm_compute. discriminate.
Qed.

(** ** Reading a table without storage *)

(** C9. When the engine answers the read of a table with its
    table-not-found error, [get_data_frame] returns the frame without rows
    that has the declared schema, and [get_lazy_frame] that frame made lazy,
    if the name is in the catalog; it raises, with the engine's error as the
    cause, if the name is not in the catalog. Either way the read is the one
    engine call made. *)
Theorem read_without_storage (engine : Engine) st n msg :
  let target := mkTablePath (base_path st) n in
  let so := storage_options st in
  (engine (calls st) (read_delta target so) = Raised (TableNotFoundError msg) ->
   get_data_frame engine n st =
   (match tables st !! n with
    | Some bt => Returned (empty_frame (table_schema bt))
    | None => Raised (no_such_data n (TableNotFoundError msg))
    end, log_call (read_delta target so) st)) /\
  (engine (calls st) (scan_delta target so) = Raised (TableNotFoundError msg) ->
   get_lazy_frame engine n st =
   (match tables st !! n with
    | Some bt => Returned (LazyOf (empty_frame (table_schema bt)))
    | None => Raised (no_such_data n (TableNotFoundError msg))
    end, log_call (scan_delta target so) st)).
Proof.
  intros target so. split; intros H.
  - unfold get_data_frame. unfold_monad. fold target so. rewrite H. simpl.
    destruct (tables st !! n); reflexivity.
  - unfold get_lazy_frame. unfold_monad. fold target so. rewrite H. simpl.
    destruct (tables st !! n); reflexivity.
Qed.

Lemma read_without_storage_witness :
  get_data_frame Sample.fresh_engine "T" Sample.lake =
  (Returned (empty_frame Sample.schema),
   log_call (read_delta (mkTablePath "data" "T") None) Sample.lake).
Proof.
  refine (proj1 (read_without_storage Sample.fresh_engine Sample.lake "T"
                   "no log files") _).
  reflexivity.
Defined.

(** * Further properties of the manager and the facade *)

(** ** How [merge] ends *)

Section MergeOutcome.

Variable engine : Engine.
Variable validate_schema : BaseTable -> DataFrame -> bool.

(** X1. For a declared table and a batch that passes the schema check:
    when the merge attempt returns, [merge] returns and calls the engine no
    more; when the attempt fails with anything but table-not-found, [merge]
    raises a [RuntimeError] whose message ends with the engine's message and
    whose cause is the engine's error, for every merge condition, insert and
    upsert included: there is no fallback write. *)
Theorem merge_ends_as_attempt st n bt df c o st1 :
  tables st !! n = Some bt ->
  validate_schema bt df = true ->
  let target := mkTablePath (base_path st) n in
  let so := storage_options st in
  let attempt := merge_attempt engine target df so (merge_options bt) c st in
  (attempt = (Returned tt, st1) ->
   merge engine validate_schema n df c o st = (Returned tt, st1)) /\
  (forall msg,
     attempt = (Raised (EngineException msg), st1) ->
     merge engine validate_schema n df c o st =
     (Raised (RuntimeError
                ("An error occurred during the merge operation: " +:+ msg)
                (Some (EngineException msg))), st1)).
Proof.
  intros Ht Hv target so attempt. subst attempt target so.
  split; [intros Hat|intros msg Hat];
    rewrite (merge_run _ _ _ _ _ _ _ _ Ht Hv); unfold catch; rewrite Hat;
    reflexivity.
Qed.

Lemma merge_actions_unknown target c st :
  ~ In c LakeManager.merge_conditions ->
  merge_actions engine target c st = (Returned tt, st).
Proof.
  intros Hc. unfold merge_actions.
  assert (forall x, In x LakeManager.merge_conditions -> String.eqb c x = false)
    as Hne.
  { intros x Hx. destruct (String.eqb_spec c x) as [->|]; [contradiction|reflexivity]. }
  rewrite !Hne by (simpl; auto 10). reflexivity.
Qed.

(** X2. The manager's [merge] does not check its condition. With a
    condition that is none of the five, on a declared table and a fitting
    batch, it opens the table for the merge and, if that returns, makes no
    [execute] call and returns as if the merge were done; if the table is not
    found it raises the no-data error, without the fallback append. *)
Theorem merge_unknown_condition st n bt df c o :
  tables st !! n = Some bt ->
  validate_schema bt df = true ->
  ~ In c LakeManager.merge_conditions ->
  let target := mkTablePath (base_path st) n in
  let opening :=
    write_delta_merge target df (storage_options st) (merge_options bt) in
  merge engine validate_schema n df c o st =
  (match engine (calls st) opening with
   | Returned _ => Returned tt
   | Raised (TableNotFoundError msg) =>
       Raised (no_data_to_merge c (TableNotFoundError msg))
   | Raised e => Raised (merge_failed e)
   end, log_call opening st).
Proof.
  intros Ht Hv Hc target opening.
  rewrite (merge_run _ _ _ _ _ _ _ _ Ht Hv).
  unfold catch, merge_attempt, bind. unfold call at 1. fold target opening.
  destruct (engine (calls st) opening) as [e|[]].
  - unfold merge_handler.
    assert (falls_back c = false) as Hf.
    { unfold falls_back.
      destruct (String.eqb_spec c "insert") as [->|];
        [exfalso; apply Hc; simpl; auto|].
      destruct (String.eqb_spec c "upsert") as [->|];
        [exfalso; apply Hc; simpl; auto|]. reflexivity. }
    destruct e; [rewrite Hf|]; reflexivity.
  - rewrite (merge_actions_unknown _ _ _ Hc). reflexivity.
Qed.

End MergeOutcome.

Lemma merge_ends_as_attempt_witness :
  merge Sample.ready_engine spec_validate_schema "T" Sample.batch "upsert" None
    Sample.lake =
  (Returned tt,
   log_call (execute (mkTablePath "data" "T")
               [when_matched_update_all; when_not_matched_insert_all])
     (log_call (write_delta_merge (mkTablePath "data" "T") Sample.batch None
                  (merge_options Sample.T)) Sample.lake)).
Proof.
  refine (proj1 (merge_ends_as_attempt Sample.ready_engine spec_validate_schema
                   Sample.lake "T" Sample.T Sample.batch "upsert" None _ _ _) _).
  - reflexivity.
  - vm_compute. reflexivity.
  - reflexivity.
Defined.

Lemma merge_unknown_condition_witness :
  merge Sample.ready_engine spec_validate_schema "T" Sample.batch "replace" None
    Sample.lake =
  (Returned tt,
   log_call (write_delta_merge (mkTablePath "data" "T") Sample.batch None
               (merge_options Sample.T)) Sample.lake).
Proof.
  refine (merge_unknown_condition Sample.ready_engine spec_validate_schema
            Sample.lake "T" Sample.T Sample.batch "replace" None _ _ _).
  - reflexivity.
  - vm_compute. reflexivity.
  - simpl. intros [H|[H|[H|[H|[H|[]]]]]]; discriminate.
Defined.

(** ** Plain writes and reads *)

Section WritesAndReads.

Variable engine : Engine.
Variable validate_schema : BaseTable -> DataFrame -> bool.

(** The outcome of an engine call seen by the caller of the manager when
    nothing catches the engine's exception. *)
Lemma propagate_call (k : EngineCall) st :
  propagate (call engine k) st =
  (match engine (calls st) k with
   | Returned v => Returned v
   | Raised e => Raised (Propagated e)
   end, log_call k st).
Proof.
  unfold propagate, catch, call, raise.
  destruct (engine (calls st) k); reflexivity.
Qed.

Lemma append_run st n bt df o :
  tables st !! n = Some bt ->
  validate_schema bt df = true ->
  let k := write_delta (mkTablePath (base_path st) n) ModeAppend df
             (with_description o (primary_keys bt)) (storage_options st) in
  append engine validate_schema n df o st =
  (match engine (calls st) k with
   | Returned _ => Returned tt
   | Raised e => Raised (Propagated e)
   end, log_call k st).
Proof.
  intros Ht Hv k. unfold append. unfold_monad.
  rewrite Ht. simpl. rewrite Hv. simpl. fold k.
  destruct (engine (calls st) k) as [e|[]]; reflexivity.
Qed.

Lemma overwrite_run st n bt df o :
  tables st !! n = Some bt ->
  validate_schema bt df = true ->
  let k := write_delta (mkTablePath (base_path st) n) ModeOverwrite df
             (with_description o (primary_keys bt)) (storage_options st) in
  overwrite engine validate_schema n df o st =
  (match engine (calls st) k with
   | Returned _ => Returned tt
   | Raised e => Raised (Propagated e)
   end, log_call k st).
Proof.
  intros Ht Hv k. unfold overwrite. unfold_monad.
  rewrite Ht. simpl. rewrite Hv. simpl. fold k.
  destruct (engine (calls st) k) as [e|[]]; reflexivity.
Qed.

(** X3. For a declared table and a batch that passes the schema check,
    [append] and [overwrite] make one engine call, the [write_delta] in their
    mode with the whole batch, and end as it ends: they return when it
    returns, and an exception of the engine reaches the caller as it is, not
    wrapped as [merge] wraps it. *)
Theorem write_ends_as_engine st n bt df o :
  tables st !! n = Some bt ->
  validate_schema bt df = true ->
  let target := mkTablePath (base_path st) n in
  let so := storage_options st in
  let opts := with_description o (primary_keys bt) in
  append engine validate_schema n df o st =
    (match engine (calls st) (write_delta target ModeAppend df opts so) with
     | Returned _ => Returned tt
     | Raised e => Raised (Propagated e)
     end, log_call (write_delta target ModeAppend df opts so) st) /\
  overwrite engine validate_schema n df o st =
    (match engine (calls st) (write_delta target ModeOverwrite df opts so) with
     | Returned _ => Returned tt
     | Raised e => Raised (Propagated e)
     end, log_call (write_delta target ModeOverwrite df opts so) st).
Proof.
  intros Ht Hv target so opts. split.
  - exact (append_run st n bt df o Ht Hv).
  - exact (overwrite_run st n bt df o Ht Hv).
Qed.

(** X4. The write options the caller gives to [append] reach the engine
    unchanged but for the key [description]: whatever the caller put there is
    replaced by the table's primary-key string. *)
Theorem write_options_forwarded st n bt df o :
  tables st !! n = Some bt ->
  validate_schema bt df = true ->
  exists opts,
    calls (snd (append engine validate_schema n df o st)) =
      calls st ++ [write_delta (mkTablePath (base_path st) n) ModeAppend df opts
                     (storage_options st)] /\
    opts !! "description" = Some (PyStr (primary_keys bt)) /\
    forall key, key <> "description" ->
      opts !! key = match o with Some given => given !! key | None => None end.
Proof.
  intros Ht Hv. exists (with_description o (primary_keys bt)).
  split; [|split].
  - rewrite (append_run st n bt df o Ht Hv). reflexivity.
  - unfold with_description. apply lookup_insert_eq.
  - intros key Hk. unfold with_description.
    rewrite lookup_insert_ne by congruence.
    destruct o; [reflexivity|apply lookup_empty].
Qed.

End WritesAndReads.

Lemma write_ends_as_engine_witness :
  overwrite Sample.fresh_engine spec_validate_schema "T" Sample.batch None
    Sample.lake =
  (Returned tt,
   log_call (write_delta (mkTablePath "data" "T") ModeOverwrite Sample.batch
               (with_description None "id") None) Sample.lake).
Proof.
  refine (proj2 (write_ends_as_engine Sample.fresh_engine spec_validate_schema
                   Sample.lake "T" Sample.T Sample.batch None _ _)).
  - reflexivity.
  - vm_compute. reflexivity.
Defined.

Lemma write_options_forwarded_witness :
  exists opts,
    calls (snd (append Sample.fresh_engine spec_validate_schema "T" Sample.batch
                  (Some {["description" := PyStr "mine"; "name" := PyStr "t"]})
                  Sample.lake)) =
      [write_delta (mkTablePath "data" "T") ModeAppend Sample.batch opts None] /\
    opts !! "description" = Some (PyStr "id") /\
    forall key, key <> "description" ->
      opts !! key =
      ({["description" := PyStr "mine"; "name" := PyStr "t"]} : Options) !! key.
Proof.
  refine (write_options_forwarded Sample.fresh_engine spec_validate_schema
            Sample.lake "T" Sample.T Sample.batch
            (Some {["description" := PyStr "mine"; "name" := PyStr "t"]}) _ _).
  - reflexivity.
  - vm_compute. reflexivity.
Defined.

(** ** Reads and maintenance at the manager *)

Section ReadsAndMaintenance.

Variable engine : Engine.

(** X5. When the engine returns the frame, [get_data_frame] and
    [get_lazy_frame] hand it on as it is, whether or not the name is in the
    catalog and whatever the declared schema; when the engine fails with
    anything but table-not-found, its exception reaches the caller as it is.
    The read is the one engine call made. *)
Theorem read_ends_as_engine st n :
  let target := mkTablePath (base_path st) n in
  let so := storage_options st in
  (forall df,
     engine (calls st) (read_delta target so) = Returned df ->
     get_data_frame engine n st = (Returned df, log_call (read_delta target so) st)) /\
  (forall msg,
     engine (calls st) (read_delta target so) = Raised (EngineException msg) ->
     get_data_frame engine n st =
     (Raised (Propagated (EngineException msg)),
      log_call (read_delta target so) st)) /\
  (forall lf,
     engine (calls st) (scan_delta target so) = Returned lf ->
     get_lazy_frame engine n st = (Returned lf, log_call (scan_delta target so) st)) /\
  (forall msg,
     engine (calls st) (scan_delta target so) = Raised (EngineException msg) ->
     get_lazy_frame engine n st =
     (Raised (Propagated (EngineException msg)),
      log_call (scan_delta target so) st)).
Proof.
  intros target so.
  repeat split; intros x H; unfold get_data_frame, get_lazy_frame;
    unfold_monad; fold target so; rewrite H; reflexivity.
Qed.

(** X6. At the manager, [optimize_table] and [vacuum_table] first open the
    table. When that fails, its exception reaches the caller as it is and
    neither [compact] nor [vacuum] is called; when it returns, the one call
    that follows is [compact] with the three arguments as given, or [vacuum]
    with the retention and the enforce flag as given and never as a dry run,
    and the method ends as that call ends. *)
Theorem maintenance_calls st n ts mct wp rh enforce :
  let target := mkTablePath (base_path st) n in
  let so := storage_options st in
  let opened := log_call (DeltaTable target so) st in
  (forall e,
     engine (calls st) (DeltaTable target so) = Raised e ->
     optimize_table engine n ts mct wp st = (Raised (Propagated e), opened) /\
     vacuum_table engine n rh enforce st = (Raised (Propagated e), opened)) /\
  (engine (calls st) (DeltaTable target so) = Returned tt ->
   optimize_table engine n ts mct wp st =
     (match engine (calls opened) (compact target ts mct wp) with
      | Returned metrics => Returned metrics
      | Raised e => Raised (Propagated e)
      end, log_call (compact target ts mct wp) opened) /\
   vacuum_table engine n rh enforce st =
     (match engine (calls opened) (vacuum target rh false enforce) with
      | Returned files => Returned files
      | Raised e => Raised (Propagated e)
      end, log_call (vacuum target rh false enforce) opened)).
Proof.
  intros target so opened. split.
  - intros e H. unfold optimize_table, vacuum_table. unfold_monad.
    fold target so. rewrite H. split; reflexivity.
  - intros H. unfold optimize_table, vacuum_table. unfold_monad.
    fold target so. rewrite H. fold opened. simpl. split.
    + destruct (engine (calls st ++ [DeltaTable target so])
                  (compact target ts mct wp)); reflexivity.
    + destruct (engine (calls st ++ [DeltaTable target so])
                  (vacuum target rh false enforce)); reflexivity.
Qed.

Variable validate_schema : BaseTable -> DataFrame -> bool.

(** X7. At the manager, a name the catalog does not hold is a [KeyError]:
    [append], [merge], [overwrite] and [get_table_schema] raise it before any
    engine call, while [get_table_info] opens the table first and raises it
    only once that call has returned. *)
Theorem undeclared_key_error st n df c o :
  tables st !! n = None ->
  append engine validate_schema n df o st = (Raised (KeyError n), st) /\
  merge engine validate_schema n df c o st = (Raised (KeyError n), st) /\
  overwrite engine validate_schema n df o st = (Raised (KeyError n), st) /\
  get_table_schema n st = (Raised (KeyError n), st) /\
  let opening := DeltaTable (mkTablePath (base_path st) n) (storage_options st) in
  (engine (calls st) opening = Returned tt ->
   get_table_info engine n st = (Raised (KeyError n), log_call opening st)).
Proof.
  intros Hn. unfold append, merge, overwrite, get_table_schema, get_table_info.
  unfold_monad. rewrite Hn. repeat split.
  intros H. rewrite H. simpl. rewrite Hn. reflexivity.
Qed.

End ReadsAndMaintenance.

Lemma read_ends_as_engine_witness :
  get_lazy_frame Sample.ready_engine "elsewhere" Sample.lake =
  (Returned (LazyScan (mkTablePath "data" "elsewhere")),
   log_call (scan_delta (mkTablePath "data" "elsewhere") None) Sample.lake).
Proof.
  refine (proj1 (proj2 (proj2 (read_ends_as_engine Sample.ready_engine
                                 Sample.lake "elsewhere"))) _ _).
  reflexivity.
Defined.

Lemma maintenance_calls_witness :
  vacuum_table Sample.fresh_engine "T" (Some 0%Z) false Sample.lake =
  (Raised (Propagated (TableNotFoundError "no log files")),
   log_call (DeltaTable (mkTablePath "data" "T") None) Sample.lake).
Proof.
  refine (proj2 (proj1 (maintenance_calls Sample.fresh_engine Sample.lake "T"
                          None None None (Some 0%Z) false) _ _)).
  reflexivity.
Defined.

Lemma undeclared_key_error_witness :
  get_table_info Sample.ready_engine "T" Sample.empty_lake =
  (Raised (KeyError "T"),
   log_call (DeltaTable (mkTablePath "data" "T") None) Sample.empty_lake).
Proof.
  refine (proj2 (proj2 (proj2 (proj2
            (undeclared_key_error Sample.ready_engine spec_validate_schema
               Sample.empty_lake "T" Sample.batch "insert" None _)))) _);
    reflexivity.
Defined.

(** ** The facade in front of the manager *)

Lemma model_first {A} errors (m : M Exn A) st :
  errors <> [] ->
  (LakeManager.model errors ;;; m) st = (Raised (ValidationError errors), st).
Proof.
  intros He. unfold bind. rewrite model_run.
  destruct errors; [contradiction|reflexivity].
Qed.

Lemma guarded_new {A} n (m : M Exn A) st :
  tables st !! n = None ->
  (LakeManager.model [] ;;; LakeManager._check_table_not_exists n ;;; m) st = m st.
Proof.
  intros Ht. unfold LakeManager._check_table_not_exists, LakeManager.model.
  unfold_monad. rewrite Ht. reflexivity.
Qed.

Lemma returning_ext {A} (f : A -> Value) (m m' : M Exn A) st :
  m st = m' st -> returning f m st = returning f m' st.
Proof. intros H. unfold returning, bind. rewrite H. reflexivity. Qed.

Lemma returning_discard {A} (m : M Exn A) st :
  returning (fun _ => VNone) (m ;;; ret tt) st = returning (fun _ => VNone) m st.
Proof.
  unfold returning, bind, ret. destruct (m st) as [[e|a] st']; reflexivity.
Qed.

Section FacadeFacts.

Variable engine : Engine.
Variable validate_schema : BaseTable -> DataFrame -> bool.
Variable backend_delete_table : string -> M Exn bool.

(** X8. On the facade the request model comes first: a call whose request
    model reports errors (a blank table name, a merge condition that is none
    of the five) raises the validation error with those errors and leaves the
    manager as it was, whatever the catalog holds; nothing is looked up and
    the engine is not called. *)
Theorem validation_first op st :
  request_errors op <> [] ->
  run engine validate_schema backend_delete_table op st =
  (Raised (ValidationError (request_errors op)), st).
Proof.
  intros He.
  destruct op; simpl request_errors in *; try contradiction;
    unfold run; apply returning_raised; unfold_operations;
    exact (model_first _ _ _ He).
Qed.

(** X9. The facade adds the request model and the existence check and
    nothing else: when the request model is satisfied and the table is in the
    catalog (for [create_table]: is not in it yet), the facade call does what
    the manager's method does, with the same outcome, the same catalog and
    the same engine calls, except that the facade returns nothing where
    [optimize_table] and [vacuum_table] of the manager return the engine's
    report. *)
Theorem facade_delegates op st :
  request_errors op = [] ->
  precondition op st ->
  run engine validate_schema backend_delete_table op st =
  manager_run engine validate_schema backend_delete_table op st.
Proof.
  intros He Hp.
  destruct op; simpl in He, Hp; unfold run, manager_run.
  1: { apply returning_ext. unfold_operations. rewrite He.
       exact (guarded_new _ _ _ Hp). }
  8: { reflexivity. }
  all: destruct Hp as [bt Hbt].
  6, 7: etransitivity; [|apply returning_discard].
  all: apply returning_ext; unfold_operations; rewrite ?He;
    exact (guarded_known _ _ _ _ Hbt).
Qed.

End FacadeFacts.

Lemma validation_first_witness :
  run Sample.ready_engine spec_validate_schema
    (spec_delete_table Sample.ready_engine)
    (op_merge_table "T" Sample.batch "replace" None) Sample.lake =
  (Raised (ValidationError
             ["Input should be 'update', 'insert', 'delete', 'upsert' or 'upsert_delete'"]),
   Sample.lake).
Proof.
  refine (validation_first Sample.ready_engine spec_validate_schema
            (spec_delete_table Sample.ready_engine)
            (op_merge_table "T" Sample.batch "replace" None) Sample.lake _).
  vm_compute. discriminate.
Defined.

Lemma facade_delegates_witness :
  run Sample.ready_engine spec_validate_schema
    (spec_delete_table Sample.ready_engine)
    (op_optimize_table "T" 1024%Z None None) Sample.lake =
  manager_run Sample.ready_engine spec_validate_schema
    (spec_delete_table Sample.ready_engine)
    (op_optimize_table "T" 1024%Z None None) Sample.lake.
Proof.
  refine (facade_delegates Sample.ready_engine spec_validate_schema
            (spec_delete_table Sample.ready_engine)
            (op_optimize_table "T" 1024%Z None None) Sample.lake _ _).
  - reflexivity.
  - exists Sample.T. reflexivity.
Defined.

(** ** The catalog under creation *)

(** X10. [create_table] of the manager checks nothing: it always returns,
    puts the new definition under the name even when the name was already
    taken (the former definition is replaced), leaves every other entry as it
    was, and calls the engine not at all, so no storage is made yet. *)
Theorem manager_create_replaces st n schema pk :
  let result := create_table n schema pk st in
  fst result = Returned tt /\
  tables (snd result) !! n = Some (mkBaseTable n schema (composite_key pk)) /\
  (forall m, m <> n -> tables (snd result) !! m = tables st !! m) /\
  calls (snd result) = calls st /\
  base_path (snd result) = base_path st /\
  storage_options (snd result) = storage_options st.
Proof.
  simpl. repeat split.
  - apply lookup_insert_eq.
  - intros m Hm. apply lookup_insert_ne. congruence.
Qed.

Lemma create_duplicate st n bt schema pk :
  PyStr.blank n = false ->
  tables st !! n = Some bt ->
  LakeManager.create_table n schema pk st =
  (Raised (LakeManager.duplicate_table n), st).
Proof.
  intros Hb Ht. unfold_operations. unfold LakeManager._check_table_not_exists.
  rewrite (validate_table_name_ok _ Hb). unfold LakeManager.model.
  unfold_monad. rewrite Ht. reflexivity.
Qed.

Lemma create_state st n schema pk :
  snd (LakeManager.create_table n schema pk st) = st \/
  (PyStr.blank n = false /\
   snd (LakeManager.create_table n schema pk st) =
   set_tables (<[n := mkBaseTable n schema (composite_key pk)]> (tables st)) st).
Proof.
  destruct (PyStr.blank n) eqn:Hb.
  - left. unfold_operations.
    rewrite (model_first _ _ _); [reflexivity|].
    rewrite (validate_table_name_blank _ Hb). discriminate.
  - destruct (tables st !! n) as [bt|] eqn:Ht.
    + left. rewrite (create_duplicate _ _ _ _ _ Hb Ht). reflexivity.
    + right. split; [reflexivity|]. unfold_operations.
      rewrite (validate_table_name_ok _ Hb).
      rewrite (guarded_new _ _ _ Ht). reflexivity.
Qed.

Lemma catalog_wf_subseteq st st' :
  tables st' ⊆ tables st -> catalog_wf st -> catalog_wf st'.
Proof.
  intros Hsub Hwf n bt Hn. apply (Hwf n bt).
  eapply lookup_weaken; eassumption.
Qed.

Section CatalogInvariant.

Variable engine : Engine.
Variable validate_schema : BaseTable -> DataFrame -> bool.
Variable backend_delete_table : string -> M Exn bool.

(** The backend's [delete_table] may take entries out of the catalog; it
    adds and alters none. *)
Hypothesis backend_removes :
  forall n st, tables (snd (backend_delete_table n st)) ⊆ tables st.

Lemma run_keeps_catalog op :
  is_create op = false -> is_delete op = false ->
  keeps_catalog (run engine validate_schema backend_delete_table op).
Proof.
  intros Hc Hd. destruct op; try discriminate; unfold_facade; keeps.
Qed.

Lemma delete_state n st :
  tables (snd (run engine validate_schema backend_delete_table
                 (op_delete_table n) st)) ⊆ tables st.
Proof.
  unfold run, returning, LakeManager.delete_table, LakeManager.TableNameModel,
    LakeManager._check_table_exists.
  unfold bind at 1. unfold bind at 1. rewrite model_run.
  destruct (LakeManager.validate_table_name n); [|reflexivity].
  unfold_monad. destruct (tables st !! n); [|reflexivity].
  pose proof (backend_removes n st) as H.
  destruct (backend_delete_table n st) as [[e|ok] st']; exact H.
Qed.

Lemma create_keeps_wf n schema pk st :
  catalog_wf st ->
  catalog_wf (snd (run engine validate_schema backend_delete_table
                     (op_create_table n schema pk) st)).
Proof.
  intros Hwf. unfold run, returning, bind.
  pose proof (create_state st n schema pk) as Hs.
  destruct (LakeManager.create_table n schema pk st) as [[e|[]] st'];
    simpl in *;
    (destruct Hs as [->|[Hb ->]]; [exact Hwf|]);
    intros m bt; unfold set_tables; simpl;
    (destruct (decide (n = m)) as [<-|Hne];
     [rewrite lookup_insert_eq; intros [= <-]; split; [exact Hb|reflexivity]
     |rewrite lookup_insert_ne by exact Hne; apply Hwf]).
Qed.

(** X11. The facade keeps the catalog well formed: when every entry sits
    under a name that is not blank and bears that name, the same holds after
    any facade call, whether it returned or raised, as long as the backend's
    [delete_table] only takes entries out. *)
Theorem facade_keeps_wf op st :
  catalog_wf st ->
  catalog_wf (snd (run engine validate_schema backend_delete_table op st)).
Proof.
  intros Hwf.
  destruct (is_create op) eqn:Hc; [|destruct (is_delete op) eqn:Hd].
  - destruct op; try discriminate. apply create_keeps_wf, Hwf.
  - destruct op; try discriminate.
    eapply catalog_wf_subseteq; [apply delete_state|exact Hwf].
  - intros n bt. rewrite (run_keeps_catalog op Hc Hd st). apply Hwf.
Qed.

Lemma run_all_wf ops st :
  catalog_wf st ->
  catalog_wf (run_all engine validate_schema backend_delete_table ops st).
Proof.
  revert st. induction ops as [|op ops IH]; intros st Hwf; simpl; [exact Hwf|].
  apply IH. destruct (is_create op) eqn:Hc; [|destruct (is_delete op) eqn:Hd].
  - destruct op; try discriminate. apply create_keeps_wf, Hwf.
  - destruct op; try discriminate.
    eapply catalog_wf_subseteq; [apply delete_state|exact Hwf].
  - intros n bt. rewrite (run_keeps_catalog op Hc Hd st). apply Hwf.
Qed.

(** X12. Starting from an empty catalog, after any sequence of facade calls
    (calls that raised included), every name in the catalog is protected:
    creating it again raises the duplicate-table error and leaves the manager
    as it is, and the entry found under a name bears that name. *)
Theorem duplicate_after_any_calls ops st0 n bt schema pk :
  tables st0 = ∅ ->
  let st := run_all engine validate_schema backend_delete_table ops st0 in
  tables st !! n = Some bt ->
  LakeManager.create_table n schema pk st =
    (Raised (LakeManager.duplicate_table n), st) /\
  name bt = n.
Proof.
  intros He st Ht.
  assert (catalog_wf st) as Hwf.
  { apply run_all_wf. intros m b Hm. rewrite He, lookup_empty in Hm.
    discriminate. }
  destruct (Hwf n bt Ht) as [Hb Hn].
  split; [exact (create_duplicate _ _ _ _ _ Hb Ht)|exact Hn].
Qed.

End CatalogInvariant.

Lemma spec_delete_removes engine n st :
  tables (snd (spec_delete_table engine n st)) ⊆ tables st.
Proof.
  unfold spec_delete_table. unfold_monad. simpl.
  destruct (engine (calls st) (remove_storage _)) as [e|[]]; simpl;
    [reflexivity|apply delete_subseteq].
Qed.

Lemma facade_keeps_wf_witness :
  catalog_wf
    (snd (run Sample.fresh_engine spec_validate_schema
            (spec_delete_table Sample.fresh_engine)
            (op_create_table "my_table" Sample.schema (PkStr "id"))
            Sample.empty_lake)).
Proof.
  refine (facade_keeps_wf Sample.fresh_engine spec_validate_schema
            (spec_delete_table Sample.fresh_engine)
            (spec_delete_removes Sample.fresh_engine)
            (op_create_table "my_table" Sample.schema (PkStr "id"))
            Sample.empty_lake _).
  intros n bt H. simpl in H. rewrite lookup_empty in H. discriminate.
Defined.

Lemma duplicate_after_any_calls_witness :
  let st :=
    run_all Sample.fresh_engine spec_validate_schema
      (spec_delete_table Sample.fresh_engine)
      [op_create_table "a" Sample.schema (PkStr "id");
       op_append_table "b" Sample.batch None;
       op_create_table "b" Sample.schema (PkList ["id"; "v"]);
       op_delete_table "a"]
      Sample.empty_lake in
  LakeManager.create_table "b" Sample.schema (PkStr "v") st =
  (Raised (LakeManager.duplicate_table "b"), st).
Proof.
  refine (proj1 (duplicate_after_any_calls Sample.fresh_engine
            spec_validate_schema (spec_delete_table Sample.fresh_engine)
            (spec_delete_removes Sample.fresh_engine)
            [op_create_table "a" Sample.schema (PkStr "id");
             op_append_table "b" Sample.batch None;
             op_create_table "b" Sample.schema (PkList ["id"; "v"]);
             op_delete_table "a"]
            Sample.empty_lake "b" (mkBaseTable "b" Sample.schema "id,v")
            Sample.schema (PkStr "v") _ _)).
  - reflexivity.
  - vm_compute. reflexivity.
Defined.

(** ** Listing the tables *)

Section Listing.

Variable engine : Engine.

Lemma get_table_info_frame n st :
  exists l, snd (get_table_info engine n st) = log_calls l st.
Proof.
  unfold get_table_info. unfold_monad.
  repeat match goal with
         | |- context [engine ?h ?k] => destruct (engine h k); simpl
         | |- context [tables ?s !! n] => destruct (tables s !! n); simpl
         end;
    eexists; unfold log_calls, log_call; simpl; rewrite <- ?app_assoc;
    reflexivity.
Qed.

Lemma get_table_info_unopened n st e :
  engine (calls st) (DeltaTable (mkTablePath (base_path st) n) (storage_options st))
    = Raised e ->
  fst (get_table_info engine n st) = Raised (Propagated e).
Proof.
  intros H. unfold get_table_info. unfold_monad. rewrite H. reflexivity.
Qed.

Lemma get_table_info_returns n bt st :
  always_returns engine ->
  tables st !! n = Some bt ->
  exists info l,
    get_table_info engine n st = (Returned info, log_calls l st) /\
    info_exists info = true /\
    info_schema info = table_schema bt /\
    info_primary_keys info = primary_keys bt.
Proof.
  intros Hret Ht. unfold get_table_info. unfold_monad.
  repeat match goal with
         | |- context [engine ?h ?k] =>
             let v := fresh "v" in let Hv := fresh "Hv" in
             destruct (Hret h k) as [v Hv]; rewrite Hv; simpl
         | |- context [tables ?s !! n] =>
             change (tables s !! n) with (tables st !! n); rewrite Ht; simpl
         end.
  eexists _, _. split.
  - unfold log_calls, log_call; simpl; rewrite <- ?app_assoc; reflexivity.
  - repeat split.
Qed.

Lemma table_infos_returns names st :
  always_returns engine ->
  (forall n, In n names -> is_Some (tables st !! n)) ->
  exists infos l,
    table_infos engine names st = (Returned infos, log_calls l st) /\
    map fst infos = names /\
    forall n info, In (n, info) infos ->
      exists bt, tables st !! n = Some bt /\ info_exists info = true /\
                 info_schema info = table_schema bt /\
                 info_primary_keys info = primary_keys bt.
Proof.
  intros Hret. revert st.
  induction names as [|n names IH]; intros st Hin; simpl.
  - exists [], []. split; [|split; [reflexivity|intros ? ? []]].
    unfold ret, log_calls. rewrite app_nil_r. destruct st; reflexivity.
  - destruct (Hin n (or_introl eq_refl)) as [bt Ht].
    destruct (get_table_info_returns n bt st Hret Ht)
      as (info & l & Hrun & Hinfo).
    destruct (IH (log_calls l st)) as (infos & l' & Hrest & Hnames & Hall).
    { intros m Hm. simpl. apply Hin. right. exact Hm. }
    exists ((n, info) :: infos), (l ++ l'). split; [|split].
    + unfold bind. rewrite Hrun, Hrest. unfold ret, log_calls. simpl.
      rewrite <- app_assoc. reflexivity.
    + simpl. rewrite Hnames. reflexivity.
    + intros m i [[= <- <-]|Hm]; [exists bt; split; [exact Ht|exact Hinfo]|].
      apply Hall in Hm. exact Hm.
Qed.

(** X13. Under an engine whose calls all return, [list_tables] returns one
    entry for each table of the catalog and no other, each with the schema
    and the primary-key string the table was declared with, and leaves the
    catalog as it was. *)
Theorem list_tables_complete st :
  always_returns engine ->
  exists infos l,
    list_tables engine st = (Returned infos, log_calls l st) /\
    NoDup (map fst infos) /\
    (forall n info, In (n, info) infos ->
       exists bt, tables st !! n = Some bt /\ info_exists info = true /\
                  info_schema info = table_schema bt /\
                  info_primary_keys info = primary_keys bt) /\
    (forall n bt, tables st !! n = Some bt -> exists info, In (n, info) infos).
Proof.
  intros Hret. unfold list_tables. unfold bind, gets.
  destruct (table_infos_returns (map fst (map_to_list (tables st))) st Hret)
    as (infos & l & Hrun & Hnames & Hall).
  { intros n Hn. apply in_map_iff in Hn as [[m bt] [<- Hm]].
    apply list_elem_of_In, elem_of_map_to_list in Hm. simpl. eauto. }
  exists infos, l. split; [exact Hrun|]. split; [|split; [exact Hall|]].
  - rewrite Hnames. apply NoDup_fst_map_to_list.
  - intros n bt Ht.
    assert (In n (map fst infos)) as Hn.
    { rewrite Hnames. apply in_map_iff. exists (n, bt). split; [reflexivity|].
      apply list_elem_of_In, elem_of_map_to_list. exact Ht. }
    apply in_map_iff in Hn as [[m info] [Hm Hi]]. simpl in Hm. subst m. eauto.
Qed.

Lemma table_infos_fails n names st st' :
  base_path st' = base_path st ->
  storage_options st' = storage_options st ->
  (forall history, exists e,
     engine history
       (DeltaTable (mkTablePath (base_path st) n) (storage_options st))
     = Raised e) ->
  In n names ->
  exists e, fst (table_infos engine names st') = Raised e.
Proof.
  intros Hb Hs Hfail. revert st' Hb Hs.
  induction names as [|m names IH]; intros st' Hb Hs Hin; [destruct Hin|].
  simpl. unfold bind at 1.
  destruct (get_table_info engine m st') as [[e|info] st''] eqn:Hrun;
    [eexists; reflexivity|].
  destruct (decide (m = n)) as [->|Hne].
  - destruct (Hfail (calls st')) as [e He]. rewrite <- Hb, <- Hs in He.
    pose proof (get_table_info_unopened n st' e He) as Hraise.
    rewrite Hrun in Hraise. discriminate.
  - destruct Hin as [->|Hin]; [contradiction|].
    destruct (get_table_info_frame m st') as [l Hl]. rewrite Hrun in Hl.
    simpl in Hl. subst st''.
    destruct (IH (log_calls l st') Hb Hs Hin) as [e He].
    exists e. unfold bind.
    destruct (table_infos engine names (log_calls l st')) as [[e'|infos] st3];
      simpl in *; [exact He|discriminate].
Qed.

(** X14. One table without storage is enough for [list_tables] to fail:
    when the catalog holds a table that the engine cannot open, [list_tables]
    raises, however many other tables could be listed. *)
Theorem list_tables_fails st n bt :
  tables st !! n = Some bt ->
  (forall history, exists e,
     engine history
       (DeltaTable (mkTablePath (base_path st) n) (storage_options st))
     = Raised e) ->
  exists e, fst (list_tables engine st) = Raised e.
Proof.
  intros Ht Hfail. unfold list_tables. unfold bind, gets.
  apply (table_infos_fails n _ st st eq_refl eq_refl Hfail).
  apply in_map_iff. exists (n, bt). split; [reflexivity|].
  apply list_elem_of_In, elem_of_map_to_list. exact Ht.
Qed.

End Listing.

Lemma ready_engine_returns : always_returns Sample.ready_engine.
Proof. intros history c. destruct c; eexists; reflexivity. Qed.

Lemma list_tables_complete_witness :
  exists infos l,
    list_tables Sample.ready_engine Sample.lake =
      (Returned infos, log_calls l Sample.lake) /\
    NoDup (map fst infos) /\
    (forall n info, In (n, info) infos ->
       exists bt, tables Sample.lake !! n = Some bt /\ info_exists info = true /\
                  info_schema info = table_schema bt /\
                  info_primary_keys info = primary_keys bt) /\
    (forall n bt, tables Sample.lake !! n = Some bt ->
       exists info, In (n, info) infos).
Proof.
  exact (list_tables_complete Sample.ready_engine Sample.lake
           ready_engine_returns).
Defined.

Lemma list_tables_fails_witness :
  exists e, fst (list_tables Sample.fresh_engine Sample.lake) = Raised e.
Proof.
  refine (list_tables_fails Sample.fresh_engine Sample.lake "T" Sample.T _ _).
  - reflexivity.
  - intros history. eexists. reflexivity.
Defined.

(** ** Names the request models turn down *)

Module BlankFacts.
Import PyStr.

Lemma lstrip_empty s : lstrip s = EmptyString <-> all_space s = true.
Proof.
  induction s as [|a s IH]; simpl; [tauto|].
  destruct (isspace a); simpl; [exact IH|].
  split; discriminate.
Qed.

Lemma lstrip_head s a s' : lstrip s = String a s' -> isspace a = false.
Proof.
  induction s as [|b s IH]; simpl; [discriminate|].
  destruct (isspace b) eqn:Hb; [exact IH|].
  intros [= <- _]. exact Hb.
Qed.

Lemma rstrip_empty s : rstrip s = EmptyString <-> all_space s = true.
Proof.
  induction s as [|a s IH]; simpl; [tauto|].
  destruct (rstrip s) eqn:Hr.
  - destruct (isspace a); simpl; [|split; discriminate].
    split; intros _; [apply IH|]; reflexivity.
  - split; [discriminate|]. intros H. apply andb_true_iff in H as [_ H].
    apply IH in H. discriminate.
Qed.

Lemma strip_empty s : strip s = EmptyString <-> all_space s = true.
Proof.
  unfold strip. split.
  - intros H. apply rstrip_empty in H. apply lstrip_empty.
    destruct (lstrip s) as [|a s'] eqn:Hl; [reflexivity|].
    apply lstrip_head in Hl. simpl in H. rewrite Hl in H. discriminate.
  - intros H. apply lstrip_empty in H. rewrite H. reflexivity.
Qed.

Lemma blank_all_space v : blank v = all_space v.
Proof.
  destruct v as [|a v]; [reflexivity|]. unfold blank.
  destruct (all_space (String a v)) eqn:H.
  - apply strip_empty in H. rewrite H. reflexivity.
  - destruct (strip (String a v)) eqn:Hs; [|reflexivity].
    apply strip_empty in Hs. congruence.
Qed.

End BlankFacts.

(** X15. The name validators of the request models, and the base-path
    validator of the lake, turn down exactly the strings made of white space
    only, the empty string among them. Any other string is accepted and kept
    as it is: white space around a name is not trimmed away. *)
Theorem validators_reject_white_space v so :
  (all_space v = true ->
   LakeManager.validate_table_name v = ["Table name cannot be empty"] /\
   LakeManager_init v so = Raised (ValidationError ["Base path cannot be empty"])) /\
  (all_space v = false ->
   LakeManager.validate_table_name v = [] /\
   LakeManager_init v so = Returned (v, so)).
Proof.
  unfold LakeManager.validate_table_name, LakeManager_init, validate_base_path.
  rewrite BlankFacts.blank_all_space.
  split; intros ->; split; reflexivity.
Qed.

Lemma validators_reject_white_space_witness :
  LakeManager.validate_table_name " my table " = [] /\
  LakeManager_init " my table " None = Returned (" my table ", None).
Proof.
  refine (proj2 (validators_reject_white_space " my table " None) _).
  reflexivity.
Defined.

(** ** Key strings typed with white space *)

Module SpacedFacts.
Import PyStr.

Lemma contains_app c s t : contains c (s +:+ t) = contains c s || contains c t.
Proof.
  induction s as [|a s IH]; simpl; [reflexivity|].
  destruct (Ascii.eqb a c); [reflexivity|exact IH].
Qed.

Lemma all_space_no_comma l : all_space l = true -> contains comma l = false.
Proof.
  induction l as [|a l IH]; simpl; [reflexivity|].
  intros H. apply andb_true_iff in H as [Ha Hl].
  destruct (Ascii.eqb_spec a comma) as [->|_]; [discriminate|exact (IH Hl)].
Qed.

Lemma lstrip_app_space l s : all_space l = true -> lstrip (l +:+ s) = lstrip s.
Proof.
  induction l as [|a l IH]; simpl; [reflexivity|].
  intros H. apply andb_true_iff in H as [-> Hl]. exact (IH Hl).
Qed.

Lemma rstrip_app_space s r : all_space r = true -> rstrip (s +:+ r) = rstrip s.
Proof.
  intros Hr. induction s as [|a s IH]; simpl.
  - apply BlankFacts.rstrip_empty, Hr.
  - rewrite IH. reflexivity.
Qed.

Lemma lstrip_length s : String.length (lstrip s) <= String.length s.
Proof.
  induction s as [|a s IH]; simpl; [lia|].
  destruct (isspace a); simpl; lia.
Qed.

Lemma rstrip_length s : String.length (rstrip s) <= String.length s.
Proof.
  induction s as [|a s IH]; simpl; [lia|].
  destruct (rstrip s); [destruct (isspace a)|]; simpl in *; lia.
Qed.

Lemma strip_fixed_head a s : strip (String a s) = String a s -> isspace a = false.
Proof.
  unfold strip. simpl. destruct (isspace a); [|reflexivity].
  intros H. pose proof (rstrip_length (lstrip s)) as H1.
  pose proof (lstrip_length s) as H2. rewrite H in H1. simpl in H1. lia.
Qed.

(** White space around a column name is stripped away, when the name has
    none at its own ends. *)
Lemma strip_spaced part col :
  spaced part col -> strip col = col -> strip part = col.
Proof.
  intros (l & r & Hl & Hr & ->) Hc. unfold strip.
  rewrite (lstrip_app_space _ _ Hl).
  destruct col as [|a col].
  - change (EmptyString +:+ r) with r.
    apply BlankFacts.lstrip_empty in Hr. rewrite Hr. reflexivity.
  - pose proof (strip_fixed_head _ _ Hc) as Ha.
    unfold strip in Hc. simpl in Hc. rewrite Ha in Hc.
    change (String a col +:+ r) with (String a (col +:+ r)).
    cbn [lstrip]. rewrite Ha.
    change (String a (col +:+ r)) with (String a col +:+ r).
    rewrite (rstrip_app_space _ _ Hr). exact Hc.
Qed.

Lemma spaced_no_comma part col :
  spaced part col -> contains comma col = false -> contains comma part = false.
Proof.
  intros (l & r & Hl & Hr & ->) Hc.
  rewrite !contains_app, Hc, (all_space_no_comma _ Hl), (all_space_no_comma _ Hr).
  reflexivity.
Qed.

End SpacedFacts.

(** X16. A key string that lists two or more columns separated by commas
    may have white space around each column name: the join predicate is the
    one of the bare names, in the order given. A key string without a comma
    is taken as it is, white space included. *)
Theorem merge_predicate_spaced parts cols :
  Forall2 spaced parts cols ->
  Forall plain_column cols ->
  2 <= length cols ->
  merge_predicate (PyStr.join "," parts) =
    PyStr.join " AND " (map key_equality cols) /\
  (forall key, PyStr.contains comma key = false ->
     merge_predicate key = "s." +:+ key +:+ " = t." +:+ key).
Proof.
  intros Hsp Hplain Hlen. split; [|exact merge_predicate_single].
  assert (map PyStr.strip parts = cols) as Hstrip.
  { clear Hlen. induction Hsp as [|part col parts cols H _ IH]; [reflexivity|].
    inversion Hplain as [|? ? [_ Hc] Hrest]; subst. simpl.
    rewrite (SpacedFacts.strip_spaced _ _ H Hc), (IH Hrest). reflexivity. }
  assert (Forall (fun p => PyStr.contains comma p = false) parts) as Hfree.
  { clear Hlen Hstrip. induction Hsp as [|part col parts cols H _ IH];
      [constructor|].
    inversion Hplain as [|? ? [Hc _] Hrest]; subst.
    constructor; [exact (SpacedFacts.spaced_no_comma _ _ H Hc)|exact (IH Hrest)]. }
  assert (length parts = length cols) as Hl by (eapply Forall2_length; eassumption).
  destruct parts as [|p [|q parts]]; simpl in Hl; try lia.
  unfold merge_predicate.
  change "," with (String comma EmptyString).
  rewrite PyStrFacts.contains_join2.
  assert (p :: q :: parts <> []) as Hne by discriminate.
  rewrite (PyStrFacts.split_join _ _ Hne Hfree).
  rewrite Hstrip. reflexivity.
Qed.

Lemma merge_predicate_spaced_witness :
  merge_predicate "sequence, value_1" =
  "s.sequence = t.sequence AND s.value_1 = t.value_1".
Proof.
  refine (proj1 (merge_predicate_spaced ["sequence"; " value_1"]
                   ["sequence"; "value_1"] _ _ _)).
  - constructor; [|constructor; [|constructor]].
    + exists "", "". repeat split.
    + exists " ", "". repeat split.
  - repeat constructor.
  - simpl. lia.
Defined.

(** ** From the declared key to the first write *)

(** X17. The key declared at [create_table] reaches the engine with the
    first write. After a table is created on the facade under a new name,
    an [append_table] of a batch that passes the schema check makes the one
    call [write_delta] in append mode whose [description] option is the
    declared key columns joined with commas; and when the engine finds no
    table to merge into, a [merge_table] with condition insert ends with that
    same append call, coming after the failed opening. *)
Theorem declared_key_described (engine : Engine)
    (validate_schema : BaseTable -> DataFrame -> bool)
    st n schema pk df o msg :
  PyStr.blank n = false ->
  tables st !! n = None ->
  let key := PyStr.join "," (declared_columns pk) in
  let definition := mkBaseTable n schema key in
  validate_schema definition df = true ->
  let created := snd (LakeManager.create_table n schema pk st) in
  let target := mkTablePath (base_path st) n in
  let so := storage_options st in
  let opts := with_description o key in
  opts !! "description" = Some (PyStr key) /\
  calls (snd (LakeManager.append_table engine validate_schema n df o created)) =
    calls st ++ [write_delta target ModeAppend df opts so] /\
  (engine (calls st) (write_delta_merge target df so (merge_options definition))
     = Raised (TableNotFoundError msg) ->
   calls (snd (LakeManager.merge_table engine validate_schema n df "insert" o
                 created)) =
     calls st ++ [write_delta_merge target df so (merge_options definition);
                  write_delta target ModeAppend df opts so]).
Proof.
  intros Hb Hn key definition Hv created target so opts.
  assert (created = set_tables (<[n := definition]> (tables st)) st) as Hcreated.
  { subst created. unfold_operations.
    rewrite (validate_table_name_ok _ Hb), (guarded_new _ _ _ Hn).
    unfold create_table, modify. simpl. rewrite composite_key_join.
    reflexivity. }
  assert (tables created !! n = Some definition) as Ht
      by (rewrite Hcreated; apply lookup_insert_eq).
  split; [apply lookup_insert_eq|]. split.
  - destruct (append_table_known engine validate_schema created n definition
                df o Ht Hb) as [-> _].
    rewrite (append_run engine validate_schema created n definition df o Ht Hv).
    rewrite Hcreated. reflexivity.
  - intros Hopen.
    rewrite (merge_table_known engine validate_schema created n definition df
               "insert" o Ht Hb) by (simpl; auto).
    rewrite (merge_run _ _ _ _ _ _ _ _ Ht Hv). unfold catch.
    rewrite (merge_attempt_not_found engine _ _ _ _ _ created
               (TableNotFoundError msg))
      by (rewrite Hcreated; exact Hopen).
    unfold merge_handler. change (falls_back "insert") with true. cbv iota.
    unfold propagate, catch, call, raise.
    match goal with
    | |- context [engine ?h (write_delta ?a ?b ?c ?d ?e)] =>
        destruct (engine h (write_delta a b c d e))
    end; rewrite Hcreated; simpl; rewrite <- app_assoc; reflexivity.
Qed.

Lemma declared_key_described_witness :
  calls (snd (LakeManager.merge_table Sample.fresh_engine spec_validate_schema
                "my_table" Sample.batch "insert" None
                (snd (LakeManager.create_table "my_table" Sample.schema
                        (PkList ["id"; "v"]) Sample.lake)))) =
  [write_delta_merge (mkTablePath "data" "my_table") Sample.batch None
     (merge_options (mkBaseTable "my_table" Sample.schema "id,v"));
   write_delta (mkTablePath "data" "my_table") ModeAppend Sample.batch
     (with_description None "id,v") None].
Proof.
  refine (proj2 (proj2 (declared_key_described Sample.fresh_engine
            spec_validate_schema Sample.lake "my_table" Sample.schema
            (PkList ["id"; "v"]) Sample.batch None "no log files" _ _ _)) _).
  - reflexivity.
  - reflexivity.
  - vm_compute. reflexivity.
  - reflexivity.
Defined.

Lemma manager_create_replaces_witness :
  tables (snd (create_table "T" [("k", Int32)] (PkStr "k") Sample.lake)) !! "T" =
  Some (mkBaseTable "T" [("k", Int32)] "k").
Proof.
  exact (proj1 (proj2 (manager_create_replaces Sample.lake "T" [("k", Int32)]
                         (PkStr "k")))).
Defined.
